(** * The meal-description nutrition estimator of [src/lib/parseMeal.ts]

    A shallow embedding of [parseMeal], [formatParsedMeal] and
    [calculateTotals], with the JavaScript built-ins they call, followed by
    the properties of the estimator, the formatter and the aggregator.

    Conventions of the embedding.
    - A JavaScript string is the list of its UTF-16 code units ([jsstring]).
    - A JavaScript number is the exact value it holds, or one of the three
      special values of IEEE 754 ([number]).  Finite values are rationals kept
      in lowest terms; the rounding of binary64 arithmetic and the sign of
      zero are not modelled.  Every total that [parseMeal] accumulates is a
      multiple of 1/4 far below 2^53, which binary64 holds exactly; the
      macros of the generic estimate, which involve 0.15 and 0.35, are
      checked against their binary64 computation ([Binary64]).
    - [null] and an absent property are both [None].
    - The [await] on a 500 ms timer at the head of [parseMeal] has no effect
      on the value returned; the embedding is the function from the
      description to the resolved value. *)

From Stdlib Require Import String Ascii DecimalString.
From Stdlib Require Import List ZArith NArith QArith Qabs Qround Qreduction Qcanon.
From Stdlib Require Import Bool Lia Lqa Permutation.
From Stdlib Require PrimFloat FloatOps SpecFloat Uint63.
Import ListNotations.


(* ================================================================== *)
(** * JavaScript numbers *)
(* ================================================================== *)

Module JsNumber.

Inductive number : Type :=
| Num (q : Q)          (* a finite value *)
| Inf (negative : bool) (* Infinity and -Infinity *)
| NaN.

Definition is_zero (q : Q) : bool := (Qnum q =? 0)%Z.
Definition is_neg (q : Q) : bool := (Qnum q <? 0)%Z.

Definition of_Z (z : Z) : number := Num (inject_Z z).
Definition of_nat (n : nat) : number := of_Z (Z.of_nat n).

Definition add (x y : number) : number :=
  match x, y with
  | NaN, _ | _, NaN => NaN
  | Num a, Num b => Num (Qred (a + b))
  | Inf s, Inf t => if Bool.eqb s t then Inf s else NaN
  | Inf s, Num _ | Num _, Inf s => Inf s
  end.

Definition neg (x : number) : number :=
  match x with
  | Num a => Num (Qred (- a))
  | Inf s => Inf (negb s)
  | NaN => NaN
  end.

Definition sub (x y : number) : number := add x (neg y).

Definition mul (x y : number) : number :=
  match x, y with
  | NaN, _ | _, NaN => NaN
  | Num a, Num b => Num (Qred (a * b))
  | Inf s, Num b | Num b, Inf s =>
      if is_zero b then NaN else Inf (xorb s (is_neg b))
  | Inf s, Inf t => Inf (xorb s t)
  end.

Definition div (x y : number) : number :=
  match x, y with
  | NaN, _ | _, NaN => NaN
  | Num a, Num b =>
      if is_zero b
      then (if is_zero a then NaN else Inf (is_neg a))
      else Num (Qred (a / b))
  | Num _, Inf _ => Num 0
  | Inf s, Num b => Inf (xorb s (is_neg b))
  | Inf _, Inf _ => NaN
  end.

(** [x > y]; every comparison with [NaN] is false. *)
Definition gt (x y : number) : bool :=
  match x, y with
  | NaN, _ | _, NaN => false
  | Num a, Num b => negb (Qle_bool a b)
  | Inf s, Inf t => negb s && t
  | Inf s, Num _ => negb s
  | Num _, Inf t => t
  end.

(** [x <= y]; every comparison with [NaN] is false. *)
Definition le (x y : number) : bool :=
  match x, y with
  | NaN, _ | _, NaN => false
  | Num a, Num b => Qle_bool a b
  | Inf s, Inf t => s || negb t
  | Inf s, Num _ => s
  | Num _, Inf t => negb t
  end.

Definition Math_abs (x : number) : number :=
  match x with
  | Num a => Num (Qred (Qabs a))
  | Inf _ => Inf false
  | NaN => NaN
  end.

(** [Math.round]: the nearest integer, a tie going towards +Infinity. *)
Definition Math_round (x : number) : number :=
  match x with
  | Num a => of_Z (Qfloor (a + (1 # 2))%Q)
  | _ => x
  end.

Definition Math_min (x y : number) : number :=
  match x, y with
  | NaN, _ | _, NaN => NaN
  | _, _ => if le x y then x else y
  end.

(** ToBoolean on a number: [0] and [NaN] are falsy. *)
Definition truthy (x : number) : bool :=
  match x with
  | Num a => negb (is_zero a)
  | Inf _ => true
  | NaN => false
  end.

(** ToBoolean on [number | null | undefined]. *)
Definition truthy_opt (x : option number) : bool :=
  match x with
  | Some v => truthy v
  | None => false
  end.

(** [x || 0] for [x : number | null | undefined]. *)
Definition or0 (x : option number) : number :=
  match x with
  | Some v => if truthy v then v else Num 0
  | None => Num 0
  end.

Definition isNaN (x : number) : bool :=
  match x with NaN => true | _ => false end.

End JsNumber.
Export JsNumber.

Declare Scope js_scope.
Delimit Scope js_scope with js.
Bind Scope js_scope with number.
Infix "+" := add : js_scope.
Infix "-" := sub : js_scope.
Infix "*" := mul : js_scope.
Infix "/" := div : js_scope.
Infix ">" := gt : js_scope.
Infix "<=" := le : js_scope.

(* ================================================================== *)
(** * JavaScript strings *)
(* ================================================================== *)

Module JsString.

Local Open Scope N_scope.

(** A string is its sequence of UTF-16 code units. *)
Definition jsstring : Type := list N.

(** An ASCII literal as a JavaScript string. *)
Definition js (s : string) : jsstring :=
  map N_of_ascii (list_ascii_of_string s).

Fixpoint startsWith (p s : jsstring) : bool :=
  match p, s with
  | [], _ => true
  | _ :: _, [] => false
  | c :: p', d :: s' => (c =? d) && startsWith p' s'
  end.

(** [s.includes(sub)] *)
Fixpoint includes (s sub : jsstring) : bool :=
  startsWith sub s ||
  match s with
  | [] => false
  | _ :: s' => includes s' sub
  end.

(** The pieces of [s] between the code units that satisfy [is_sep]. *)
Fixpoint split_at (is_sep : N -> bool) (s : jsstring) : list jsstring :=
  match s with
  | [] => [[]]
  | c :: s' =>
      if is_sep c then [] :: split_at is_sep s'
      else match split_at is_sep s' with
           | p :: ps => (c :: p) :: ps
           | [] => [[c]]
           end
  end.

(** [s.split(sep)] for a separator of one code unit. *)
Definition split (sep : N) (s : jsstring) : list jsstring :=
  split_at (fun c => c =? sep) s.

(** [parts.join(sep)] *)
Fixpoint join (sep : jsstring) (parts : list jsstring) : jsstring :=
  match parts with
  | [] => []
  | p :: ps =>
      match ps with
      | [] => p
      | _ :: _ => p ++ sep ++ join sep ps
      end
  end.

(** ** Case conversion

    [toLowerCase] and [toUpperCase] follow the Unicode case mappings on
    Basic Latin and on the code units outside it whose mapping produces or
    consumes a Basic Latin letter and is listed below; any other code unit
    is returned as it is. *)

Definition lower_unit (c : N) : jsstring :=
  if (65 <=? c) && (c <=? 90) then [c + 32]         (* A-Z *)
  else if c =? 0x212A then [107]                     (* KELVIN SIGN -> k *)
  else if c =? 0x130 then [105; 0x307]               (* I WITH DOT ABOVE *)
  else [c].

Definition upper_unit (c : N) : jsstring :=
  if (97 <=? c) && (c <=? 122) then [c - 32]        (* a-z *)
  else if c =? 0x17F then [83]                       (* LONG S -> S *)
  else if c =? 0x131 then [73]                       (* DOTLESS I -> I *)
  else if c =? 0xDF then [83; 83]                    (* SHARP S -> SS *)
  else [c].

Definition toLowerCase (s : jsstring) : jsstring := flat_map lower_unit s.
Definition toUpperCase (s : jsstring) : jsstring := flat_map upper_unit s.

(** ** Regular expressions

    The fragment used by [parseMeal]: literal text, [\s+], concatenation
    and alternation. *)

Inductive regex : Type :=
| Lit (l : jsstring)
| WhiteSpaces                (* \s+ *)
| Cat (a b : regex)
| Alt (a b : regex).

(** The class [\s]: WhiteSpace and LineTerminator of ECMAScript. *)
Definition is_space (c : N) : bool :=
  (9 <=? c) && (c <=? 13) || (c =? 32) || (c =? 0xA0) || (c =? 0x1680)
  || (0x2000 <=? c) && (c <=? 0x200A) || (c =? 0x2028) || (c =? 0x2029)
  || (c =? 0x202F) || (c =? 0x205F) || (c =? 0x3000) || (c =? 0xFEFF).

Fixpoint dropPrefix (p s : jsstring) : option jsstring :=
  match p, s with
  | [], _ => Some s
  | _ :: _, [] => None
  | c :: p', d :: s' => if (c =? d) then dropPrefix p' s' else None
  end.

(** After one white space has been read: stop here or read one more. *)
Fixpoint more_spaces (s : jsstring) (k : jsstring -> bool) : bool :=
  k s ||
  match s with
  | c :: s' => is_space c && more_spaces s' k
  | [] => false
  end.

(** [match_at r s k]: some prefix of [s] matches [r] and the rest of [s]
    satisfies the continuation [k]. *)
Fixpoint match_at (r : regex) (s : jsstring) (k : jsstring -> bool) : bool :=
  match r with
  | Lit l =>
      match dropPrefix l s with
      | Some rest => k rest
      | None => false
      end
  | WhiteSpaces =>
      match s with
      | c :: s' => is_space c && more_spaces s' k
      | [] => false
      end
  | Cat a b => match_at a s (fun rest => match_at b rest k)
  | Alt a b => match_at a s k || match_at b s k
  end.

(** [r.test(s)] for a pattern with no flags: a match at some position. *)
Fixpoint test (r : regex) (s : jsstring) : bool :=
  match_at r s (fun _ => true) ||
  match s with
  | [] => false
  | _ :: s' => test r s'
  end.

(** ** Property enumeration order

    [Object.entries] lists the properties whose key is an array index in
    ascending numeric order, then the other string keys in the order in
    which they were created. *)

Definition is_digit (c : N) : bool := (48 <=? c) && (c <=? 57).

Definition digits_value (key : jsstring) : N :=
  fold_left (fun acc c => acc * 10 + (c - 48)) key 0.

(** A canonical numeric string below 2^32 - 1. *)
Definition is_index (key : jsstring) : bool :=
  match key with
  | [] => false
  | c :: rest =>
      forallb is_digit key
      && (negb (c =? 48) || match rest with [] => true | _ => false end)
      && (length key <=? 10)%nat
      && (digits_value key <? 4294967295)
  end.

Fixpoint insert_by_index {A} (e : jsstring * A) (l : list (jsstring * A))
  : list (jsstring * A) :=
  match l with
  | [] => [e]
  | e' :: l' =>
      if digits_value (fst e) <? digits_value (fst e')
      then e :: l
      else e' :: insert_by_index e l'
  end.

Definition Object_entries {A} (o : list (jsstring * A)) : list (jsstring * A) :=
  fold_right (@insert_by_index A) [] (filter (fun e => is_index (fst e)) o)
  ++ filter (fun e => negb (is_index (fst e))) o.

End JsString.
Export JsString.

(* ================================================================== *)
(** * The estimator, the formatter and the aggregator *)
(* ================================================================== *)

Local Open Scope js_scope.

(** [interface ParsedMeal]; a lexicon entry is a [Partial<ParsedMeal>]. *)
Record ParsedMeal : Type := {
  calories : option number;
  protein : option number;
  carbs : option number;
  fat : option number;
  confidence : option number  (* 0-1 confidence score; optional *)
}.

Definition food_entry (c p b f : Z) : ParsedMeal :=
  {| calories := Some (of_Z c); protein := Some (of_Z p);
     carbs := Some (of_Z b); fat := Some (of_Z f); confidence := None |}.

(** Mock database of common foods for simulation *)
Definition mockFoodDatabase : list (jsstring * ParsedMeal) :=
  [ (* Breakfast items *)
    (js "egg", food_entry 70 6 1 5);
    (js "eggs", food_entry 140 12 2 10);
    (js "toast", food_entry 75 3 14 1);
    (js "bread", food_entry 75 3 14 1);
    (js "butter", food_entry 100 0 0 11);
    (js "oatmeal", food_entry 150 5 27 3);
    (js "banana", food_entry 105 1 27 0);
    (js "apple", food_entry 95 0 25 0);
    (js "orange", food_entry 62 1 15 0);
    (js "coffee", food_entry 2 0 0 0);
    (js "milk", food_entry 150 8 12 8);
    (* Lunch/Dinner items *)
    (js "chicken", food_entry 165 31 0 4);
    (js "chicken breast", food_entry 165 31 0 4);
    (js "rice", food_entry 205 4 45 0);
    (js "pasta", food_entry 220 8 43 1);
    (js "salad", food_entry 20 1 4 0);
    (js "sandwich", food_entry 350 15 35 15);
    (js "burger", food_entry 540 25 40 27);
    (js "pizza", food_entry 285 12 36 10);
    (js "steak", food_entry 271 25 0 19);
    (js "salmon", food_entry 208 20 0 13);
    (js "vegetables", food_entry 50 2 10 0);
    (js "broccoli", food_entry 55 4 11 1);
    (* Snacks *)
    (js "chips", food_entry 150 2 15 10);
    (js "cookies", food_entry 160 2 21 8);
    (js "yogurt", food_entry 100 10 12 0);
    (js "nuts", food_entry 160 7 6 14);
    (js "protein bar", food_entry 200 20 20 7);
    (js "smoothie", food_entry 250 10 40 5) ].

(** Quantity indicators, as written in the object literal. *)
Definition quantities : list (jsstring * number) :=
  [ (js "two", Num 2); (js "2", Num 2);
    (js "three", Num 3); (js "3", Num 3);
    (js "four", Num 4); (js "4", Num 4);
    (js "double", Num 2);
    (js "large", Num 1.5);
    (js "small", Num 0.75);
    (js "half", Num 0.5) ].

(** [new RegExp(`${quantityWord}\\s+${food}|${food}\\s+${quantityWord}`)];
    no key of either lexicon holds a character that is special in a
    pattern, so each is interpolated as literal text. *)
Definition pattern (quantityWord food : jsstring) : regex :=
  Alt (Cat (Lit quantityWord) (Cat WhiteSpaces (Lit food)))
      (Cat (Lit food) (Cat WhiteSpaces (Lit quantityWord))).

(** The inner loop: the first quantity whose pattern matches, else 1. *)
Definition find_multiplier (lowerDesc food : jsstring) : number :=
  match find (fun e => test (pattern (fst e) food) lowerDesc)
             (Object_entries quantities) with
  | Some (_, value) => value
  | None => Num 1
  end.

(** The variables that the outer loop updates. *)
Record Totals : Type := {
  totalCalories : number;
  totalProtein : number;
  totalCarbs : number;
  totalFat : number;
  matchCount : nat
}.

Definition noTotals : Totals :=
  {| totalCalories := Num 0; totalProtein := Num 0; totalCarbs := Num 0;
     totalFat := Num 0; matchCount := 0 |}.

(** One iteration of the outer loop. *)
Definition check_food (lowerDesc : jsstring) (t : Totals)
           (entry : jsstring * ParsedMeal) : Totals :=
  let (food, nutrition) := entry in
  if includes lowerDesc food then
    let multiplier := find_multiplier lowerDesc food in
    {| totalCalories := totalCalories t + or0 (calories nutrition) * multiplier;
       totalProtein := totalProtein t + or0 (protein nutrition) * multiplier;
       totalCarbs := totalCarbs t + or0 (carbs nutrition) * multiplier;
       totalFat := totalFat t + or0 (fat nutrition) * multiplier;
       matchCount := S (matchCount t) |}
  else t.

Definition accumulate (lowerDesc : jsstring) : Totals :=
  fold_left (check_food lowerDesc) (Object_entries mockFoodDatabase) noTotals.

(** The generic estimate returned when no food matched. *)
Definition generic_estimate (mealDescription : jsstring) : ParsedMeal :=
  let words := of_nat (length (split 32 mealDescription)) in
  let baseCals := Math_min (Num 100 + words * Num 50) (Num 800) in
  {| calories := Some baseCals;
     protein := Some (Math_round (baseCals * Num 0.15 / Num 4));
     carbs := Some (Math_round (baseCals * Num 0.5 / Num 4));
     fat := Some (Math_round (baseCals * Num 0.35 / Num 9));
     confidence := Some (Num 0.3) |}.

(** Rounding of the totals, confidence, and the validation of the macros
    against the calories. *)
Definition matched_estimate (t : Totals) : ParsedMeal :=
  let calories0 := Math_round (totalCalories t) in
  let protein0 := Math_round (totalProtein t) in
  let carbs0 := Math_round (totalCarbs t) in
  let fat0 := Math_round (totalFat t) in
  let confidence0 :=
    Math_min (Num 0.9) (Num 0.3 + of_nat (matchCount t) * Num 0.2) in
  let calculatedCals := protein0 * Num 4 + carbs0 * Num 4 + fat0 * Num 9 in
  let calorieDiff := Math_abs (calculatedCals - calories0) in
  if calorieDiff > calories0 * Num 0.2 then
    let ratio := calories0 / calculatedCals in
    {| calories := Some calories0;
       protein := Some (Math_round (protein0 * ratio));
       carbs := Some (Math_round (carbs0 * ratio));
       fat := Some (Math_round (fat0 * ratio));
       confidence := Some confidence0 |}
  else
    {| calories := Some calories0;
       protein := Some protein0;
       carbs := Some carbs0;
       fat := Some fat0;
       confidence := Some confidence0 |}.

Definition parseMeal (mealDescription : jsstring) : ParsedMeal :=
  let lowerDesc := toLowerCase mealDescription in
  let t := accumulate lowerDesc in
  if (matchCount t =? 0)%nat
  then generic_estimate mealDescription
  else matched_estimate t.


(** The separator literal of [parts.join], code unit by code unit as the
    source file has it (the test of the formatter expects U+2022 between
    the two spaces). *)
Definition delimiter : jsstring := [32; 0xE2; 0x20AC; 0xA2; 32]%N.

Definition unable : jsstring := js "Unable to parse meal".

Section Formatter.

(** The conversion of a number to a string that a template literal applies. *)
Variable toString : number -> jsstring.

(** [`${x}`] for [x : number | null]. *)
Definition template (x : option number) : jsstring :=
  match x with
  | Some v => toString v
  | None => js "null"
  end.

(** [if (x) parts.push(`${x}` + suffix)] *)
Definition push_if (x : option number) (suffix : jsstring)
           (parts : list jsstring) : list jsstring :=
  if truthy_opt x then parts ++ [template x ++ suffix] else parts.

(** Helper function to format parsed meal for display *)
Definition formatParsedMeal (parsed : ParsedMeal) : jsstring :=
  if negb (truthy_opt (calories parsed)) then unable
  else
    let parts := [template (calories parsed) ++ js " cal"] in
    let parts := push_if (protein parsed) (js "g protein") parts in
    let parts := push_if (carbs parsed) (js "g carbs") parts in
    let parts := push_if (fat parsed) (js "g fat") parts in
    join delimiter parts.

End Formatter.

(** [Number::toString] on [NaN], on the infinities and on the integers of
    magnitude below 10^21, the values that the examples of this file
    display.  On any other value the digits are those of the numerator of
    the fraction, which is not what JavaScript prints; no statement below
    relies on it there, [formatParsedMeal] taking the conversion as a
    parameter. *)
Definition Number_toString (x : number) : jsstring :=
  match x with
  | Num q => js (NilZero.string_of_int (Z.to_int (Qnum (Qred q))))
  | Inf false => js "Infinity"
  | Inf true => js "-Infinity"
  | NaN => js "NaN"
  end.

(** Calculate totals from multiple parsed meals *)
Definition calculateTotals (meals : list ParsedMeal) : ParsedMeal :=
  fold_left
    (fun acc meal =>
       {| calories := Some (or0 (calories acc) + or0 (calories meal));
          protein := Some (or0 (protein acc) + or0 (protein meal));
          carbs := Some (or0 (carbs acc) + or0 (carbs meal));
          fat := Some (or0 (fat acc) + or0 (fat meal));
          confidence := None |})
    meals
    {| calories := Some (Num 0); protein := Some (Num 0);
       carbs := Some (Num 0); fat := Some (Num 0); confidence := None |}.

(* ================================================================== *)
(** * Notions used to state the properties *)
(* ================================================================== *)

(** The strings that a pattern matches. *)
Fixpoint matches (r : regex) (w : jsstring) : Prop :=
  match r with
  | Lit l => w = l
  | WhiteSpaces => w <> [] /\ Forall (fun c => is_space c = true) w
  | Cat a b => exists u v, w = u ++ v /\ matches a u /\ matches b v
  | Alt a b => matches a w \/ matches b w
  end.

(** [sub] occurs in [s]. *)
Definition substring (sub s : jsstring) : Prop :=
  exists before rest, s = before ++ sub ++ rest.

(** The foods that one pass of the outer loop matches, in loop order. *)
Definition matched_foods (lowerDesc : jsstring) : list (jsstring * ParsedMeal) :=
  filter (fun e => includes lowerDesc (fst e)) (Object_entries mockFoodDatabase).

(** What one matched food adds to a total. *)
Definition contribution (field : ParsedMeal -> option number)
           (lowerDesc : jsstring) (e : jsstring * ParsedMeal) : number :=
  or0 (field (snd e)) * find_multiplier lowerDesc (fst e).

(** A running sum, from the left, starting at 0. *)
Definition sum_of (l : list number) : number := fold_left add l (Num 0).

(** [a], one or more white spaces, [b], somewhere in [s]. *)
Definition next_to (a b s : jsstring) : Prop :=
  exists before spaces rest,
    s = before ++ a ++ spaces ++ b ++ rest
    /\ spaces <> [] /\ Forall (fun c => is_space c = true) spaces.

(** The quantity word immediately before or immediately after the food. *)
Definition adjacent (quantityWord food s : jsstring) : Prop :=
  next_to quantityWord food s \/ next_to food quantityWord s.

(** The calories that the macros of an estimate stand for, and the
    tolerance of the reconciliation: [abs(implied - calories) <=
    calories * 0.2 + epsilon]. *)
Definition implied_calories (p b f : number) : number :=
  p * Num 4 + b * Num 4 + f * Num 9.

Definition within_tolerance (epsilon : number) (r : ParsedMeal) : bool :=
  match calories r, protein r, carbs r, fat r with
  | Some c, Some p, Some b, Some f =>
      Math_abs (implied_calories p b f - c) <= c * Num 0.2 + epsilon
  | _, _, _, _ => false
  end.

(** The implied calories of the rounded totals, before any rescaling. *)
Definition implied_before (t : Totals) : number :=
  implied_calories (Math_round (totalProtein t)) (Math_round (totalCarbs t))
                   (Math_round (totalFat t)).

(** The number of words when the description is split on white space, an
    empty description counting as one word. *)
Definition whitespace_words (s : jsstring) : nat :=
  length (split_at is_space s).



(** The parts that the formatter joins: one per field that is truthy. *)
Definition truthy_part (toString : number -> jsstring)
           (x : option number) (suffix : jsstring) : list jsstring :=
  if truthy_opt x then [template toString x ++ suffix] else [].




Definition estimate (c p b f : option number) : ParsedMeal :=
  {| calories := c; protein := p; carbs := b; fat := f; confidence := None |}.

(* ================================================================== *)
(** * Notions used in the proofs *)
(* ================================================================== *)

(** ** Characters *)

(** A lower-case letter, a digit or a space: a character that stands for
    itself in a pattern. *)
Definition is_plain (c : N) : bool :=
  ((97 <=? c) && (c <=? 122) || (48 <=? c) && (c <=? 57) || (c =? 32))%N.


(** ** The outer loop *)

(** The update of the totals by a matched food. *)
Definition add_food (lowerDesc : jsstring) (t : Totals)
           (entry : jsstring * ParsedMeal) : Totals :=
  {| totalCalories := totalCalories t + contribution calories lowerDesc entry;
     totalProtein := totalProtein t + contribution protein lowerDesc entry;
     totalCarbs := totalCarbs t + contribution carbs lowerDesc entry;
     totalFat := totalFat t + contribution fat lowerDesc entry;
     matchCount := S (matchCount t) |}.

(** The multipliers that the inner loop can produce. *)
Definition multipliers : list number :=
  Num 1 :: map snd (Object_entries quantities).

(** A lexicon entry with integer values, at least 2 calories and no
    negative macro. *)
Definition entry_ok (e : jsstring * ParsedMeal) : Prop :=
  exists c p b f : Z,
    snd e = food_entry c p b f
    /\ (2 <= c)%Z /\ (0 <= p)%Z /\ (0 <= b)%Z /\ (0 <= f)%Z.

(** ** The totals of the aggregator *)







(** One step of the reduction, on one field. *)
Definition step (acc : number) (x : option number) : number :=
  (or0 (Some acc) + or0 x)%js.

(** The total of one field over a sequence of estimates. *)
Definition total (field : ParsedMeal -> option number)
           (meals : list ParsedMeal) : number :=
  fold_left step (map field meals) (Num 0).

(** ** The totals of light meals *)

(** The update of the totals by a food with a given multiplier. *)
Definition add_with (t : Totals) (nutrition : ParsedMeal)
           (multiplier : number) : Totals :=
  {| totalCalories := totalCalories t + or0 (calories nutrition) * multiplier;
     totalProtein := totalProtein t + or0 (protein nutrition) * multiplier;
     totalCarbs := totalCarbs t + or0 (carbs nutrition) * multiplier;
     totalFat := totalFat t + or0 (fat nutrition) * multiplier;
     matchCount := S (matchCount t) |}.

(** The values of [multipliers], each once. *)
Definition multiplier_values : list number :=
  [Num 1; Num 2; Num 3; Num 4; Num 1.5; Num 0.75; Num 0.5].

(** Totals whose calories are below 42.5, that is, round to 42 at most. *)
Definition light (t : Totals) : bool :=
  match totalCalories t with
  | Num q => negb (Qle_bool (85 # 2) q)
  | _ => false
  end.

(** The light totals that the outer loop can reach: those reached so far,
    and those that the next food, with any multiplier, makes of them. *)
Definition grow (reached : list Totals) (e : jsstring * ParsedMeal)
  : list Totals :=
  reached
    ++ filter light
         (flat_map (fun t => map (add_with t (snd e)) multiplier_values)
                   reached).

Definition light_totals : list Totals :=
  fold_left grow (Object_entries mockFoodDatabase) [noTotals].

Definition is_Num0 (x : number) : bool :=
  match x with
  | Num (Qmake Z0 xH) => true
  | _ => false
  end.

(** The macros imply no calories, or the estimate is within tolerance. *)
Definition tolerance_ok (t : Totals) : bool :=
  is_Num0 (implied_before t) || within_tolerance (Num 0) (matched_estimate t).

(** ** Binary64

    The two inexact constants of the generic estimate, 0.15 and 0.35, are
    read here as JavaScript reads them, as the nearest binary64 numbers,
    and the macros are computed in binary64, to be compared with the exact
    computation of [generic_estimate]. *)

Module Binary64.

Import PrimFloat.
#[local] Set Warnings "-inexact-float".

(** The exact value of a binary64 number. *)
Definition value (x : float) : number :=
  match FloatOps.Prim2SF x with
  | SpecFloat.S754_zero _ => Num 0
  | SpecFloat.S754_finite s m e =>
      Num (Qred ((if s then -1 else 1) * inject_Z (Z.pos m) * Qpower 2 e))
  | SpecFloat.S754_infinity s => Inf s
  | SpecFloat.S754_nan => NaN
  end.

Definition of_int (z : Z) : float := of_uint63 (Uint63.of_Z z).

(** [baseCals * 0.15 / 4], [baseCals * 0.5 / 4] and [baseCals * 0.35 / 9] *)
Definition protein_share (baseCals : Z) : float :=
  (of_int baseCals * 0.15 / 4)%float.
Definition carbs_share (baseCals : Z) : float :=
  (of_int baseCals * 0.5 / 4)%float.
Definition fat_share (baseCals : Z) : float :=
  (of_int baseCals * 0.35 / 9)%float.

End Binary64.

(** The calories that the generic estimate can have. *)
Definition generic_calories : list Z :=
  [150; 200; 250; 300; 350; 400; 450; 500; 550; 600; 650; 700; 750; 800]%Z.

(* ================================================================== *)
(** * Further notions for the estimator *)
(* ================================================================== *)

(** [a === b] on strings. *)
Fixpoint string_eq (a b : jsstring) : bool :=
  match a, b with
  | [], [] => true
  | c :: a', d :: b' => (c =? d)%N && string_eq a' b'
  | _, _ => false
  end.

(** The description mentions coffee and no other food of the lexicon. *)
Definition only_coffee (lowerDesc : jsstring) : bool :=
  includes lowerDesc (js "coffee")
  && forallb (fun e => negb (includes lowerDesc (fst e))
                       || string_eq (fst e) (js "coffee"))
             (Object_entries mockFoodDatabase).

(** The estimate of the no-match path, from its calories. *)
Definition generic_of (baseCals : number) : ParsedMeal :=
  {| calories := Some baseCals;
     protein := Some (Math_round (baseCals * Num 0.15 / Num 4));
     carbs := Some (Math_round (baseCals * Num 0.5 / Num 4));
     fat := Some (Math_round (baseCals * Num 0.35 / Num 9));
     confidence := Some (Num 0.3) |}.

(** A field that holds an integer of at least 1. *)
Definition positive_integer (x : option number) : bool :=
  match x with
  | Some (Num (Qmake (Zpos _) xH)) => true
  | _ => false
  end.

(** The part of the display for a macro of [z] grams: none for 0. *)
Definition gram_part (toString : number -> jsstring) (z : Z)
           (suffix : jsstring) : list jsstring :=
  if (z =? 0)%Z then [] else [toString (of_Z z) ++ suffix].

(** The entry of a food, each value times [k], as the estimate of a
    description that mentions that food alone. *)
Definition scaled (k : Z) (nutrition : ParsedMeal) : ParsedMeal :=
  {| calories := Some (or0 (calories nutrition) * of_Z k);
     protein := Some (or0 (protein nutrition) * of_Z k);
     carbs := Some (or0 (carbs nutrition) * of_Z k);
     fat := Some (or0 (fat nutrition) * of_Z k);
     confidence := Some (Num (1 # 2)) |}.

(** The confidence after [n] matches, as a rational. *)
Definition confidence_of (n : nat) : Q :=
  match n with
  | 0%nat => 3 # 10
  | 1%nat => 5 # 10
  | 2%nat => 7 # 10
  | _ => 9 # 10
  end.

(** ** The confidence in binary64

    [Math.min(0.9, 0.3 + matchCount * 0.2)] with the three constants read
    as the nearest binary64 numbers. *)

Module Confidence64.

Import PrimFloat.
#[local] Set Warnings "-inexact-float".

Definition Math_min (x y : float) : float :=
  if is_nan x || is_nan y then nan
  else if (x <=? y)%float then x else y.

Definition confidence (matchCount : Z) : float :=
  Math_min 0.9 (0.3 + Binary64.of_int matchCount * 0.2)%float.

Definition one_match : float := 0.5%float.
Definition two_matches : float := 0.7%float.
Definition more_matches : float := 0.9%float.

End Confidence64.

(* ================================================================== *)
(** * The code around the estimator

    The helpers of [src/types/meals.ts], the daily statistics of
    [src/lib/meals.ts], the pages that call the estimator and sum the meals
    of the day, the recommendation of [src/lib/workouts.ts] and the
    duration of a trip of [src/lib/trips.ts].

    What these functions obtain from outside, the rows that a query returns,
    whether a call to the database layer resolves or throws, the clock and
    the parsing and printing of dates, is an argument of the embedding: a
    handler of a page is the function from the state of the page and the
    outcomes of its calls to the state it leaves and the calls it made, in
    order. *)
(* ================================================================== *)

(** ** More of JavaScript *)

(** [x < y] *)
Definition lt (x y : number) : bool := gt y x.

(** [x === y] on numbers. *)
Definition strict_eq (x y : number) : bool :=
  match x, y with
  | Num a, Num b => Qeq_bool a b
  | Inf s, Inf t => Bool.eqb s t
  | _, _ => false
  end.

Definition Math_floor (x : number) : number :=
  match x with
  | Num a => of_Z (Qfloor a)
  | _ => x
  end.



(** ToBoolean on a string: only the empty string is falsy. *)
Definition truthy_string (s : jsstring) : bool :=
  match s with
  | [] => false
  | _ :: _ => true
  end.

(** [s || null] *)
Definition or_null (s : jsstring) : option jsstring :=
  if truthy_string s then Some s else None.

(** ToBoolean on [string | null | undefined]. *)
Definition truthy_string_opt (s : option jsstring) : bool :=
  match s with
  | Some v => truthy_string v
  | None => false
  end.

(** [s || null] for [s : string | null | undefined]. *)
Definition or_null_opt (s : option jsstring) : option jsstring :=
  if truthy_string_opt s then s else None.

(** [s.trim()]: the white space and the line terminators at both ends are
    removed; they are the characters of the class [\s]. *)
Fixpoint trimStart (s : jsstring) : jsstring :=
  match s with
  | c :: s' => if is_space c then trimStart s' else s
  | [] => []
  end.

Definition trimEnd (s : jsstring) : jsstring := rev (trimStart (rev s)).

Definition trim (s : jsstring) : jsstring := trimEnd (trimStart s).

(** A promise that has settled. *)
Inductive settled (A : Type) : Type :=
| Fulfilled (value : A)
| Rejected (reason : jsstring).

Arguments Fulfilled {A} value.
Arguments Rejected {A} reason.

(** ** [src/types/meals.ts] *)

Module Meals.

(** [interface Meal]: a row of the table of meals. *)
Record Meal : Type := {
  id : jsstring;
  user_id : jsstring;
  created_at : jsstring;
  raw_text : jsstring;
  calories : option number;
  protein : option number;
  carbs : option number;
  fat : option number
}.





Section MealDate.

(** The time of [new Date()], the time of [new Date(dateString)], both in
    milliseconds as [getTime] returns them, [NaN] for a string that is no
    date; what [toLocaleDateString] prints; and the conversion of a number
    in a template literal. *)
Variable now : number.
Variable getTime : jsstring -> number.
Variable toLocaleDateString : jsstring -> jsstring.
Variable toString : number -> jsstring.

(** Format meal date for display *)
Definition formatMealDate (dateString : jsstring) : jsstring :=
  let diffMs := now - getTime dateString in
  let diffHours := Math_floor (diffMs / (Num 1000 * Num 60 * Num 60)) in
  if lt diffHours (Num 1) then
    let diffMinutes := Math_floor (diffMs / (Num 1000 * Num 60)) in
    if lt diffMinutes (Num 1) then js "Just now"
    else toString diffMinutes ++ js " minute"
           ++ (if diffMinutes > Num 1 then js "s" else []) ++ js " ago"
  else if lt diffHours (Num 24) then
    toString diffHours ++ js " hour"
      ++ (if diffHours > Num 1 then js "s" else []) ++ js " ago"
  else
    let diffDays := Math_floor (diffHours / Num 24) in
    if strict_eq diffDays (Num 1) then js "Yesterday"
    else if lt diffDays (Num 7) then toString diffDays ++ js " days ago"
    else toLocaleDateString dateString.

End MealDate.

(** The argument of [createMeal]: [Omit<MealInsert, 'user_id'>], with no
    [created_at]. *)
Module Insert.

Record MealInsert : Type := {
  raw_text : jsstring;
  calories : option number;
  protein : option number;
  carbs : option number;
  fat : option number
}.

End Insert.

End Meals.

(** The four nutrition fields of a row, as an estimate. *)
Definition nutrition (meal : Meals.Meal) : ParsedMeal :=
  estimate (Meals.calories meal) (Meals.protein meal) (Meals.carbs meal)
           (Meals.fat meal).



(** ** [src/lib/meals.ts] *)

Module MealsLib.

Import Meals.


End MealsLib.

(** ** [src/app/diet/page.tsx] *)

Module DietPage.

(** The state of the page. *)
Record State : Type := {
  mealText : jsstring;
  todaysMeals : list Meals.Meal;
  loading : bool;
  submitting : bool;
  error : option jsstring
}.

Definition setMealText (v : jsstring) (st : State) : State :=
  {| mealText := v; todaysMeals := todaysMeals st; loading := loading st;
     submitting := submitting st; error := error st |}.

Definition setTodaysMeals (v : list Meals.Meal) (st : State) : State :=
  {| mealText := mealText st; todaysMeals := v; loading := loading st;
     submitting := submitting st; error := error st |}.

Definition setLoading (v : bool) (st : State) : State :=
  {| mealText := mealText st; todaysMeals := todaysMeals st; loading := v;
     submitting := submitting st; error := error st |}.

Definition setSubmitting (v : bool) (st : State) : State :=
  {| mealText := mealText st; todaysMeals := todaysMeals st;
     loading := loading st; submitting := v; error := error st |}.

Definition setError (v : option jsstring) (st : State) : State :=
  {| mealText := mealText st; todaysMeals := todaysMeals st;
     loading := loading st; submitting := submitting st; error := v |}.

(** The calls of the page to [src/lib/meals.ts]. *)
Inductive call : Type :=
| createMeal (meal : Meals.Insert.MealInsert)
| getTodaysMeals.

(** [loadTodaysMeals]; [meals] is what [getTodaysMeals] resolves with. *)
Definition loadTodaysMeals (meals : settled (list Meals.Meal)) (st : State)
  : State :=
  let st := setLoading true st in
  let st := setError None st in
  let st :=
    match meals with
    | Fulfilled meals => setTodaysMeals meals st
    | Rejected _ => setError (Some (js "Failed to load today's meals")) st
    end in
  setLoading false st.

(** [handleSubmit]; [saved] is the outcome of [createMeal] and [meals] that
    of [getTodaysMeals], would they be called. *)
Definition handleSubmit (saved : settled unit)
           (meals : settled (list Meals.Meal)) (st : State)
  : State * list call :=
  if negb (truthy_string (trim (mealText st))) then
    (setError (Some (js "Please enter a meal description")) st, [])
  else
    let st1 := setSubmitting true st in
    let st1 := setError None st1 in
    (* Parse the meal using our mock AI function *)
    let parsed := parseMeal (mealText st) in
    (* Save to Supabase *)
    let meal :=
      {| Meals.Insert.raw_text := mealText st;
         Meals.Insert.calories := calories parsed;
         Meals.Insert.protein := protein parsed;
         Meals.Insert.carbs := carbs parsed;
         Meals.Insert.fat := fat parsed |} in
    match saved with
    | Fulfilled _ =>
        (* Clear input and reload meals *)
        let st2 := setMealText [] st1 in
        let st2 := loadTodaysMeals meals st2 in
        (setSubmitting false st2, [createMeal meal; getTodaysMeals])
    | Rejected _ =>
        let st2 :=
          setError (Some (js "Failed to save meal. Please try again.")) st1 in
        (setSubmitting false st2, [createMeal meal])
    end.

(** The object that the reduction of the daily totals builds. *)
Record DailyTotals : Type := {
  calories : number;
  protein : number;
  carbs : number;
  fat : number
}.

(** Calculate daily totals *)
Definition dailyTotals (todaysMeals : list Meals.Meal) : DailyTotals :=
  fold_left
    (fun acc meal =>
       {| calories := calories acc + or0 (Meals.calories meal);
          protein := protein acc + or0 (Meals.protein meal);
          carbs := carbs acc + or0 (Meals.carbs meal);
          fat := fat acc + or0 (Meals.fat meal) |})
    todaysMeals
    {| calories := Num 0; protein := Num 0; carbs := Num 0; fat := Num 0 |}.

End DietPage.

(** ** The dashboard, [src/app/page.tsx] *)

Module Dashboard.

Record DailyTotals : Type := {
  calories : number;
  protein : number
}.

(** Calculate daily totals for meals *)
Definition dailyTotals (todaysMeals : list Meals.Meal) : DailyTotals :=
  fold_left
    (fun acc meal =>
       {| calories := calories acc + or0 (Meals.calories meal);
          protein := protein acc + or0 (Meals.protein meal) |})
    todaysMeals
    {| calories := Num 0; protein := Num 0 |}.

End Dashboard.

(** ** Notions for the totals *)

(** The integer that a field counts for in a total: null, NaN and 0 count
    for 0. *)
Definition amount (x : option number) : Z :=
  match or0 x with
  | Num q => Qfloor q
  | _ => 0%Z
  end.

(** A field that counts for an integer. *)
Definition integral (x : option number) : bool :=
  match or0 x with
  | Num (Qmake _ xH) => true
  | _ => false
  end.

Definition integral_meal (m : ParsedMeal) : bool :=
  integral (calories m) && integral (protein m)
  && integral (carbs m) && integral (fat m).

Definition sum_Z (l : list Z) : Z := fold_right Z.add 0%Z l.


(** The sum of a column of a list of estimates. *)
Definition column_sum (field : ParsedMeal -> option number)
           (meals : list ParsedMeal) : Z :=
  sum_Z (map (fun m => amount (field m)) meals).

(** ** [src/lib/workouts.ts] *)

Module Workouts.



End Workouts.


(** ** [src/lib/trips.ts] *)

Module Trips.

(** [interface Trip]: a row of the table of trips. *)
Record Trip : Type := {
  id : jsstring;
  user_id : jsstring;
  created_at : jsstring;
  destination : jsstring;
  country : jsstring;
  city : jsstring;
  accommodation : option jsstring;
  start_date : jsstring;
  end_date : jsstring;
  flight_number : option jsstring;
  departure_airport : option jsstring;
  arrival_airport : option jsstring;
  departure_time : option jsstring;
  arrival_time : option jsstring;
  notes : option jsstring;
  status : jsstring
}.

(** [interface CreateTripInput]; an optional property that is absent and
    one that is null are both [None]. *)
Module Input.

Record CreateTripInput : Type := {
  destination : jsstring;
  country : jsstring;
  city : jsstring;
  accommodation : option jsstring;
  start_date : jsstring;
  end_date : jsstring;
  flight_number : option jsstring;
  departure_airport : option jsstring;
  arrival_airport : option jsstring;
  departure_time : option jsstring;
  arrival_time : option jsstring;
  notes : option jsstring;
  status : option jsstring
}.

End Input.

(** The object that [createTrip] inserts. *)
Module Insert.

Record TripInsert : Type := {
  user_id : jsstring;
  destination : jsstring;
  country : jsstring;
  city : jsstring;
  accommodation : option jsstring;
  start_date : jsstring;
  end_date : jsstring;
  flight_number : option jsstring;
  departure_airport : option jsstring;
  arrival_airport : option jsstring;
  departure_time : option jsstring;
  arrival_time : option jsstring;
  notes : option jsstring;
  status : jsstring
}.

End Insert.

(** Create a new trip entry.  [user] is the user of the session and
    [inserted] the outcome of the insertion; the result is the outcome of
    the call with the rows handed to the table. *)
Definition createTrip (user : option jsstring) (inserted : settled Trip)
           (input : Input.CreateTripInput)
  : settled Trip * list Insert.TripInsert :=
  match user with
  | None => (Rejected (js "User not authenticated"), [])
  | Some user_id =>
      (inserted,
       [{| Insert.user_id := user_id;
           Insert.destination := Input.destination input;
           Insert.country := Input.country input;
           Insert.city := Input.city input;
           Insert.accommodation := or_null_opt (Input.accommodation input);
           Insert.start_date := Input.start_date input;
           Insert.end_date := Input.end_date input;
           Insert.flight_number := or_null_opt (Input.flight_number input);
           Insert.departure_airport :=
             or_null_opt (Input.departure_airport input);
           Insert.arrival_airport := or_null_opt (Input.arrival_airport input);
           Insert.departure_time := or_null_opt (Input.departure_time input);
           Insert.arrival_time := or_null_opt (Input.arrival_time input);
           Insert.notes := or_null_opt (Input.notes input);
           Insert.status :=
             match Input.status input with
             | Some v => if truthy_string v then v else js "planned"
             | None => js "planned"
             end |}])
  end.

Section Duration.

(** The time of [new Date(s)] in milliseconds, as [getTime] returns it:
    [NaN] when [s] is no date. *)
Variable getTime : jsstring -> number.


End Duration.

End Trips.





(** ** [src/app/travel/page.tsx] *)

Module TravelPage.

(** The state of the form. *)
Record FormData : Type := {
  destination : jsstring;
  country : jsstring;
  city : jsstring;
  accommodation : jsstring;
  start_date : jsstring;
  end_date : jsstring;
  flight_number : jsstring;
  departure_airport : jsstring;
  arrival_airport : jsstring;
  departure_time : jsstring;
  arrival_time : jsstring;
  notes : jsstring
}.

Definition emptyForm : FormData :=
  {| destination := []; country := []; city := []; accommodation := [];
     start_date := []; end_date := []; flight_number := [];
     departure_airport := []; arrival_airport := []; departure_time := [];
     arrival_time := []; notes := [] |}.

(** The state of the page. *)
Record State : Type := {
  trips : list Trips.Trip;
  loading : bool;
  submitting : bool;
  error : option jsstring;
  showForm : bool;
  formData : FormData
}.

Definition setTrips (v : list Trips.Trip) (st : State) : State :=
  {| trips := v; loading := loading st; submitting := submitting st;
     error := error st; showForm := showForm st; formData := formData st |}.

Definition setLoading (v : bool) (st : State) : State :=
  {| trips := trips st; loading := v; submitting := submitting st;
     error := error st; showForm := showForm st; formData := formData st |}.

Definition setSubmitting (v : bool) (st : State) : State :=
  {| trips := trips st; loading := loading st; submitting := v;
     error := error st; showForm := showForm st; formData := formData st |}.

Definition setError (v : option jsstring) (st : State) : State :=
  {| trips := trips st; loading := loading st; submitting := submitting st;
     error := v; showForm := showForm st; formData := formData st |}.

Definition setShowForm (v : bool) (st : State) : State :=
  {| trips := trips st; loading := loading st; submitting := submitting st;
     error := error st; showForm := v; formData := formData st |}.

Definition setFormData (v : FormData) (st : State) : State :=
  {| trips := trips st; loading := loading st; submitting := submitting st;
     error := error st; showForm := showForm st; formData := v |}.

(** The calls of the page to [src/lib/trips.ts]. *)
Inductive call : Type :=
| createTrip (input : Trips.Input.CreateTripInput)
| getUpcomingTrips.

(** [loadTrips]; [upcoming] is what [getUpcomingTrips] resolves with. *)
Definition loadTrips (upcoming : settled (list Trips.Trip)) (st : State)
  : State :=
  let st := setLoading true st in
  let st := setError None st in
  let st :=
    match upcoming with
    | Fulfilled upcomingTrips => setTrips upcomingTrips st
    | Rejected _ => setError (Some (js "Failed to load trips")) st
    end in
  setLoading false st.

Section Submit.

(** The time of [new Date(s)], [NaN] when [s] is no date: what the
    comparison of two dates compares. *)
Variable getTime : jsstring -> number.

(** [handleSubmit]; [saved] is the outcome of [createTrip] and [upcoming]
    that of [getUpcomingTrips], would they be called. *)
Definition handleSubmit (saved : settled Trips.Trip)
           (upcoming : settled (list Trips.Trip)) (st : State)
  : State * list call :=
  let formData := formData st in
  (* Validate required fields *)
  if negb (truthy_string (destination formData))
     || negb (truthy_string (country formData))
     || negb (truthy_string (city formData))
     || negb (truthy_string (start_date formData))
     || negb (truthy_string (end_date formData))
  then (setError (Some (js "Please fill in all required fields")) st, [])
  (* Validate date order *)
  else if lt (getTime (end_date formData)) (getTime (start_date formData))
  then (setError (Some (js "End date must be after start date")) st, [])
  else
    let st1 := setSubmitting true st in
    let st1 := setError None st1 in
    (* Prepare trip data, converting empty strings to null for optional
       fields *)
    let tripData :=
      {| Trips.Input.destination := destination formData;
         Trips.Input.country := country formData;
         Trips.Input.city := city formData;
         Trips.Input.accommodation := or_null (accommodation formData);
         Trips.Input.start_date := start_date formData;
         Trips.Input.end_date := end_date formData;
         Trips.Input.flight_number := or_null (flight_number formData);
         Trips.Input.departure_airport :=
           or_null (departure_airport formData);
         Trips.Input.arrival_airport := or_null (arrival_airport formData);
         Trips.Input.departure_time :=
           if truthy_string (departure_time formData)
           then Some (start_date formData ++ js "T"
                        ++ departure_time formData ++ js ":00")
           else None;
         Trips.Input.arrival_time :=
           if truthy_string (arrival_time formData)
           then Some (start_date formData ++ js "T"
                        ++ arrival_time formData ++ js ":00")
           else None;
         Trips.Input.notes := or_null (notes formData);
         Trips.Input.status := None |} in
    match saved with
    | Fulfilled _ =>
        (* Reset form and reload trips *)
        let st2 := setFormData emptyForm st1 in
        let st2 := setShowForm false st2 in
        let st2 := loadTrips upcoming st2 in
        (setSubmitting false st2, [createTrip tripData; getUpcomingTrips])
    | Rejected _ =>
        let st2 :=
          setError (Some (js "Failed to save trip. Please try again.")) st1 in
        (setSubmitting false st2, [createTrip tripData])
    end.

End Submit.

End TravelPage.

(** The five fields that the form of a trip requires are filled in. *)
Definition required_filled (form : TravelPage.FormData) : bool :=
  truthy_string (TravelPage.destination form)
  && truthy_string (TravelPage.country form)
  && truthy_string (TravelPage.city form)
  && truthy_string (TravelPage.start_date form)
  && truthy_string (TravelPage.end_date form).





(** ** [src/hooks/useFetch.ts] *)

Module UseFetch.

(** [PostgrestError] *)
Record PostgrestError : Type := {
  message : jsstring;
  details : option jsstring;
  hint : option jsstring;
  code : jsstring
}.

Section Hook.

(** The type of the rows. *)
Variable T : Type.

(** [interface FetchState<T>] *)
Record FetchState : Type := {
  data : option (list T);
  error : option PostgrestError;
  loading : bool
}.

(** What awaiting the query gives: the [data] and the [error] of the
    response, or an exception, with its message when it is an [Error]. *)
Inductive outcome : Type :=
| Response (data : option (list T)) (error : option PostgrestError)
| Thrown (message : option jsstring).

(** [setState(prev => ({ ...prev, loading: true, error: null }))] *)
Definition start (prev : FetchState) : FetchState :=
  {| data := data prev; error := None; loading := true |}.

(** The state that is set when the query has settled. *)
Definition settled_state (o : outcome) : FetchState :=
  match o with
  | Response _ (Some e) => {| data := None; error := Some e; loading := false |}
  | Response d None => {| data := d; error := None; loading := false |}
  | Thrown m =>
      {| data := None;
         error :=
           Some {| message :=
                     match m with
                     | Some text => text
                     | None => js "An unknown error occurred"
                     end;
                   details := None; hint := None; code := js "UNKNOWN" |};
         loading := false |}
  end.

(** The hook between two events: its state, the run of the effect whose
    [isCancelled] is still false, if any, and the number of runs so far. *)
Record Hook : Type := {
  state : FetchState;
  live : option nat;
  runs : nat
}.

(** What happens to the hook: the effect runs, at mount and whenever the
    table or the filter changes, after the cleanup of the run before it;
    the query of a run of the effect settles; [refetch] is called; its
    query settles; the component unmounts. *)
Inductive event : Type :=
| Effect
| EffectSettled (run : nat) (o : outcome)
| Refetch
| RefetchSettled (o : outcome)
| Unmount.

Definition initial : Hook :=
  {| state := {| data := None; error := None; loading := true |};
     live := None; runs := 0 |}.

Definition step (h : Hook) (e : event) : Hook :=
  match e with
  | Effect =>
      {| state := start (state h); live := Some (runs h);
         runs := S (runs h) |}
  | EffectSettled run o =>
      match live h with
      | Some current =>
          if (run =? current)%nat
          then {| state := settled_state o; live := live h; runs := runs h |}
          else h
      | None => h
      end
  | Refetch => {| state := start (state h); live := live h; runs := runs h |}
  | RefetchSettled o =>
      {| state := settled_state o; live := live h; runs := runs h |}
  | Unmount => {| state := state h; live := None; runs := runs h |}
  end.

Definition run_events (events : list event) : Hook :=
  fold_left step events initial.

End Hook.

Arguments data {T} f.
Arguments error {T} f.
Arguments loading {T} f.
Arguments Response {T} data error.
Arguments Thrown {T} message.
Arguments settled_state {T} o.
Arguments state {T} h.
Arguments live {T} h.
Arguments runs {T} h.
Arguments Effect {T}.
Arguments EffectSettled {T} run o.
Arguments Refetch {T}.
Arguments RefetchSettled {T} o.
Arguments Unmount {T}.
Arguments initial {T}.
Arguments step {T} h e.
Arguments run_events {T} events.

End UseFetch.

(** A state of [useFetch] with no error beside data, and no error while
    loading. *)
Definition coherent (T : Type) (st : UseFetch.FetchState T) : Prop :=
  (UseFetch.data st = None \/ UseFetch.error st = None)
  /\ (UseFetch.loading st = true -> UseFetch.error st = None).

(** ** [src/hooks/useAuth.ts] *)

Module UseAuth.

Section Hook.

(** [User] and [Session] of the client library, and the user of a
    session. *)
Variables User Session : Type.
Variable user_of : Session -> User.

(** [interface AuthState] *)
Record AuthState : Type := {
  user : option User;
  session : option Session;
  loading : bool
}.

(** The state that the hook sets for a session: [session?.user ?? null]. *)
Definition signed (s : option Session) : AuthState :=
  {| user := option_map user_of s; session := s; loading := false |}.

(** The hook between two events: its state and the variable [mounted] of
    the effect. *)
Record Hook : Type := {
  authState : AuthState;
  mounted : bool
}.

(** What happens to the hook: [getSession] resolves, with a session or
    none, its error being logged only; [getSession] throws; the listener
    of [onAuthStateChange] is called; the component unmounts. *)
Inductive event : Type :=
| GotSession (s : option Session)
| GetSessionThrew
| AuthStateChange (s : option Session)
| Unmount.

Definition initial : Hook :=
  {| authState := {| user := None; session := None; loading := true |};
     mounted := true |}.

Definition step (h : Hook) (e : event) : Hook :=
  match e with
  | GotSession s | AuthStateChange s =>
      if mounted h then {| authState := signed s; mounted := true |} else h
  | GetSessionThrew =>
      if mounted h
      then {| authState :=
                {| user := None; session := None; loading := false |};
              mounted := true |}
      else h
  | Unmount => {| authState := authState h; mounted := false |}
  end.

Definition run_events (events : list event) : Hook :=
  fold_left step events initial.

End Hook.

Arguments user {User Session} a.
Arguments session {User Session} a.
Arguments loading {User Session} a.
Arguments authState {User Session} h.
Arguments mounted {User Session} h.
Arguments GotSession {Session} s.
Arguments GetSessionThrew {Session}.
Arguments AuthStateChange {Session} s.
Arguments Unmount {Session}.
Arguments initial {User Session}.
Arguments step {User Session} user_of h e.
Arguments run_events {User Session} user_of events.

End UseAuth.
(* ================================================================== *)
(** * Properties of the number operations *)
(* ================================================================== *)

#[local] Arguments Qred : simpl never.
#[local] Arguments Qplus : simpl never.
#[local] Arguments Qmult : simpl never.
#[local] Arguments Qdiv : simpl never.
#[local] Arguments Qopp : simpl never.
#[local] Arguments Qabs : simpl never.
#[local] Arguments Qfloor : simpl never.
#[local] Arguments Qle_bool : simpl never.
#[local] Arguments inject_Z : simpl never.

Section NumberFacts.


Lemma is_zero_iff (q : Q) : is_zero q = true <-> q == 0.
Proof.
  unfold is_zero, Qeq. simpl. rewrite Z.eqb_eq. lia.
Qed.

(** The falsy values of [number | null]: null, NaN and 0. *)
Lemma falsy_cases (x : option number) :
  truthy_opt x = false
  <-> x = None \/ x = Some NaN \/ exists q, x = Some (Num q) /\ q == 0.
Proof.
  destruct x as [[q|s|]|]; simpl.
  - rewrite negb_false_iff, is_zero_iff. split.
    + intros H. right. right. now exists q.
    + intros [H|[H|(q' & H & E)]]; try discriminate.
      injection H as ->. exact E.
  - split; [discriminate|].
    intros [H|[H|(q & H & _)]]; discriminate.
  - split; auto.
  - split; auto.
Qed.

Lemma inject_Z_le (a b : Z) : (a <= b)%Z -> (inject_Z a <= inject_Z b)%Q.
Proof. intros H. now rewrite <- Zle_Qle. Qed.

Lemma or0_of_Z (z : Z) : or0 (Some (of_Z z)) = of_Z z.
Proof.
  unfold or0, truthy, of_Z, is_zero. simpl.
  destruct (Z.eqb_spec z 0) as [->|]; reflexivity.
Qed.

End NumberFacts.

(* ================================================================== *)
(** * The formatter *)
(* ================================================================== *)

Section FormatterFacts.

Variable toString : number -> jsstring.

Lemma join_one (sep p : jsstring) : join sep [p] = p.
Proof. reflexivity. Qed.

Lemma join_cons (sep p q : jsstring) (l : list jsstring) :
  join sep (p :: q :: l) = p ++ sep ++ join sep (q :: l).
Proof. reflexivity. Qed.

Lemma push_if_parts (x : option number) (suffix : jsstring) (parts : list jsstring) :
  push_if toString x suffix parts = parts ++ truthy_part toString x suffix.
Proof.
  unfold push_if, truthy_part.
  destruct (truthy_opt x); [reflexivity | now rewrite app_nil_r].
Qed.

(** With truthy calories the result is the join of the calories part and
    of one part per truthy macro. *)
Lemma formatParsedMeal_parts (parsed : ParsedMeal) :
  truthy_opt (calories parsed) = true ->
  formatParsedMeal toString parsed =
  join delimiter
       ([template toString (calories parsed) ++ js " cal"]
          ++ truthy_part toString (protein parsed) (js "g protein")
          ++ truthy_part toString (carbs parsed) (js "g carbs")
          ++ truthy_part toString (fat parsed) (js "g fat")).
Proof.
  intros H. unfold formatParsedMeal. rewrite H. cbn [negb].
  rewrite !push_if_parts, <- !app_assoc. reflexivity.
Qed.

(** No join of parts reads as the fixed message: a part ends in "cal",
    "protein", "carbs" or "fat", the message in "meal". *)
Ltac last_letters H :=
  apply (f_equal (@rev N)) in H;
  repeat rewrite rev_app_distr in H;
  cbn in H; discriminate H.

Lemma parts_not_unable (parsed : ParsedMeal) :
  join delimiter
       ([template toString (calories parsed) ++ js " cal"]
          ++ truthy_part toString (protein parsed) (js "g protein")
          ++ truthy_part toString (carbs parsed) (js "g carbs")
          ++ truthy_part toString (fat parsed) (js "g fat"))
  <> unable.
Proof.
  unfold truthy_part.
  destruct (truthy_opt (protein parsed)), (truthy_opt (carbs parsed)),
    (truthy_opt (fat parsed));
    cbn [app]; rewrite ?join_cons, ?join_one; intros H; last_letters H.
Qed.

Lemma formatParsedMeal_unable_iff (parsed : ParsedMeal) :
  formatParsedMeal toString parsed = unable
  <-> truthy_opt (calories parsed) = false.
Proof.
  destruct (truthy_opt (calories parsed)) eqn:E.
  - rewrite (formatParsedMeal_parts parsed E). split; [|discriminate].
    intros H. now apply parts_not_unable in H.
  - unfold formatParsedMeal. rewrite E. now split.
Qed.

End FormatterFacts.



(* ================================================================== *)
(** * The aggregator *)
(* ================================================================== *)

Module Aggregator.













Lemma calculateTotals_from (meals : list ParsedMeal) (c p b f : number) :
  fold_left
    (fun acc meal =>
       {| calories := Some (or0 (calories acc) + or0 (calories meal))%js;
          protein := Some (or0 (protein acc) + or0 (protein meal))%js;
          carbs := Some (or0 (carbs acc) + or0 (carbs meal))%js;
          fat := Some (or0 (fat acc) + or0 (fat meal))%js;
          confidence := None |})
    meals (estimate (Some c) (Some p) (Some b) (Some f))
  = estimate (Some (fold_left step (map calories meals) c))
             (Some (fold_left step (map protein meals) p))
             (Some (fold_left step (map carbs meals) b))
             (Some (fold_left step (map fat meals) f)).
Proof.
  revert c p b f. induction meals as [|m meals IH]; intros; simpl.
  - reflexivity.
  - apply IH.
Qed.

Lemma calculateTotals_total (meals : list ParsedMeal) :
  calculateTotals meals
  = estimate (Some (total calories meals)) (Some (total protein meals))
             (Some (total carbs meals)) (Some (total fat meals)).
Proof. apply calculateTotals_from. Qed.








End Aggregator.



(* ================================================================== *)
(** * The lexicons *)
(* ================================================================== *)

Lemma entries_of_mockFoodDatabase : Object_entries mockFoodDatabase = mockFoodDatabase.
Proof. vm_compute. reflexivity. Qed.

(** The quantity words in the order in which the inner loop meets them:
    the keys that are array indices come first, in ascending order. *)
Lemma entries_of_quantities :
  Object_entries quantities =
  [ (js "2", Num 2); (js "3", Num 3); (js "4", Num 4);
    (js "two", Num 2); (js "three", Num 3); (js "four", Num 4);
    (js "double", Num 2); (js "large", Num 1.5); (js "small", Num 0.75);
    (js "half", Num 0.5) ].
Proof. vm_compute. reflexivity. Qed.

(** No key holds a character that a pattern would read as an operator. *)
Lemma lexicon_keys_plain :
  forallb (fun key => forallb is_plain key)
          (map fst mockFoodDatabase ++ map fst quantities) = true.
Proof. vm_compute. reflexivity. Qed.

Lemma mockFoodDatabase_ok : Forall entry_ok (Object_entries mockFoodDatabase).
Proof.
  rewrite entries_of_mockFoodDatabase. unfold mockFoodDatabase.
  repeat (constructor; [do 4 eexists; split; [reflexivity | lia] | ]).
  constructor.
Qed.

Lemma multipliers_range :
  Forall (fun v => exists m, v = Num m /\ (1 # 2 <= m)%Q /\ (m <= 4)%Q) multipliers.
Proof.
  unfold multipliers. rewrite entries_of_quantities.
  repeat (constructor; [eexists; split; [reflexivity | split; discriminate] | ]).
  constructor.
Qed.

Lemma find_multiplier_in (lowerDesc food : jsstring) :
  In (find_multiplier lowerDesc food) multipliers.
Proof.
  unfold find_multiplier, multipliers.
  destruct (find _ _) as [[w v]|] eqn:E; [right | now left].
  apply find_some in E. destruct E as [E _].
  now apply (in_map snd) in E.
Qed.

Lemma find_multiplier_range (lowerDesc food : jsstring) :
  exists m, find_multiplier lowerDesc food = Num m /\ (1 # 2 <= m)%Q /\ (m <= 4)%Q.
Proof.
  pose proof multipliers_range as H. rewrite Forall_forall in H.
  apply H, find_multiplier_in.
Qed.

(* ================================================================== *)
(** * The totals of the outer loop *)
(* ================================================================== *)

Section Accumulation.

Variable lowerDesc : jsstring.

Lemma check_food_add_food (t : Totals) (e : jsstring * ParsedMeal) :
  check_food lowerDesc t e
  = if includes lowerDesc (fst e) then add_food lowerDesc t e else t.
Proof. destruct e as [food nutrition]. reflexivity. Qed.

Lemma fold_check_food (l : list (jsstring * ParsedMeal)) (t : Totals) :
  fold_left (check_food lowerDesc) l t
  = fold_left (add_food lowerDesc)
              (filter (fun e => includes lowerDesc (fst e)) l) t.
Proof.
  revert t. induction l as [|e l IH]; intros t; simpl; [reflexivity|].
  rewrite IH, check_food_add_food.
  destruct (includes lowerDesc (fst e)); reflexivity.
Qed.

Lemma fold_add_food (l : list (jsstring * ParsedMeal)) (t : Totals) :
  let t' := fold_left (add_food lowerDesc) l t in
  totalCalories t'
  = fold_left add (map (contribution calories lowerDesc) l) (totalCalories t)
  /\ totalProtein t'
     = fold_left add (map (contribution protein lowerDesc) l) (totalProtein t)
  /\ totalCarbs t'
     = fold_left add (map (contribution carbs lowerDesc) l) (totalCarbs t)
  /\ totalFat t'
     = fold_left add (map (contribution fat lowerDesc) l) (totalFat t)
  /\ matchCount t' = (length l + matchCount t)%nat.
Proof.
  revert t. induction l as [|e l IH]; intros t; simpl.
  - now repeat split.
  - destruct (IH (add_food lowerDesc t e)) as (-> & -> & -> & -> & ->).
    simpl. repeat split. lia.
Qed.

(** The totals are the sums of what the matched foods contribute. *)
Lemma accumulate_sums :
  let t := accumulate lowerDesc in
  let m := matched_foods lowerDesc in
  totalCalories t = sum_of (map (contribution calories lowerDesc) m)
  /\ totalProtein t = sum_of (map (contribution protein lowerDesc) m)
  /\ totalCarbs t = sum_of (map (contribution carbs lowerDesc) m)
  /\ totalFat t = sum_of (map (contribution fat lowerDesc) m)
  /\ matchCount t = length m.
Proof.
  unfold accumulate, matched_foods, sum_of. rewrite fold_check_food.
  destruct (fold_add_food
              (filter (fun e => includes lowerDesc (fst e))
                      (Object_entries mockFoodDatabase)) noTotals)
    as (-> & -> & -> & -> & ->).
  cbn [noTotals totalCalories totalProtein totalCarbs totalFat matchCount].
  repeat split. lia.
Qed.

Lemma matched_foods_In (e : jsstring * ParsedMeal) :
  In e (matched_foods lowerDesc)
  <-> In e (Object_entries mockFoodDatabase)
      /\ includes lowerDesc (fst e) = true.
Proof. unfold matched_foods. apply filter_In. Qed.

Lemma matched_foods_ok : Forall entry_ok (matched_foods lowerDesc).
Proof.
  apply Forall_forall. intros e H.
  apply matched_foods_In in H. destruct H as [H _].
  pose proof mockFoodDatabase_ok as A. rewrite Forall_forall in A. now apply A.
Qed.

End Accumulation.

Section Bounds.

Lemma sum_from_bound (lo : Q) (l : list number) (a : Q) :
  Forall (fun v => exists q, v = Num q /\ (lo <= q)%Q) l ->
  exists q, fold_left add l (Num a) = Num q
            /\ (a + lo * inject_Z (Z.of_nat (length l)) <= q)%Q.
Proof.
  intros H. revert a. induction H as [|v l (q & -> & Hq) _ IH]; intros a.
  - exists a. split; [reflexivity|].
    change (inject_Z (Z.of_nat (length (@nil number)))) with 0%Q. lra.
  - cbn [fold_left add length].
    destruct (IH (Qred (a + q))) as (r & -> & Hr).
    exists r. split; [reflexivity|].
    rewrite Qred_correct in Hr.
    rewrite Nat2Z.inj_succ, <- Z.add_1_r, inject_Z_plus.
    change (inject_Z 1) with 1%Q. lra.
Qed.

Lemma sum_of_bound (lo : Q) (l : list number) :
  Forall (fun v => exists q, v = Num q /\ (lo <= q)%Q) l ->
  exists q, sum_of l = Num q
            /\ (lo * inject_Z (Z.of_nat (length l)) <= q)%Q.
Proof.
  intros H. destruct (sum_from_bound lo l 0 H) as (q & E & B).
  exists q. split; [exact E | lra].
Qed.

Lemma contribution_calories (d : jsstring) (e : jsstring * ParsedMeal) :
  entry_ok e -> exists q, contribution calories d e = Num q /\ (1 <= q)%Q.
Proof.
  intros (c & p & b & f & E & Hc & _).
  destruct (find_multiplier_range d (fst e)) as (m & Hm & Hlo & _).
  unfold contribution. rewrite E, Hm. cbn [calories food_entry].
  rewrite or0_of_Z. eexists. split; [reflexivity|].
  rewrite Qred_correct.
  assert (2 <= inject_Z c)%Q by exact (inject_Z_le _ _ Hc).
  nra.
Qed.

Lemma contribution_macro (d : jsstring) (e : jsstring * ParsedMeal) :
  entry_ok e ->
  (exists q, contribution protein d e = Num q /\ (0 <= q)%Q)
  /\ (exists q, contribution carbs d e = Num q /\ (0 <= q)%Q)
  /\ (exists q, contribution fat d e = Num q /\ (0 <= q)%Q).
Proof.
  intros (c & p & b & f & E & _ & Hp & Hb & Hf).
  destruct (find_multiplier_range d (fst e)) as (m & Hm & Hlo & _).
  unfold contribution. rewrite E, Hm. cbn [protein carbs fat food_entry].
  rewrite !or0_of_Z.
  apply inject_Z_le in Hp, Hb, Hf. change (inject_Z 0) with 0%Q in *.
  repeat split; (eexists; split; [reflexivity|]); rewrite Qred_correct; nra.
Qed.

(** Every total is a finite number; the macros are not negative and the
    calories are at least the number of matched foods. *)
Lemma accumulate_values (d : jsstring) :
  exists qc qp qb qf,
    totalCalories (accumulate d) = Num qc
    /\ totalProtein (accumulate d) = Num qp
    /\ totalCarbs (accumulate d) = Num qb
    /\ totalFat (accumulate d) = Num qf
    /\ (inject_Z (Z.of_nat (matchCount (accumulate d))) <= qc)%Q
    /\ (0 <= qp)%Q /\ (0 <= qb)%Q /\ (0 <= qf)%Q.
Proof.
  destruct (accumulate_sums d) as (Ec & Ep & Eb & Ef & En).
  pose proof (matched_foods_ok d) as Hok.
  assert (Hc : Forall (fun v => exists q, v = Num q /\ (1 <= q)%Q)
                      (map (contribution calories d) (matched_foods d))).
  { apply Forall_map. eapply Forall_impl; [|exact Hok].
    intros e He; now apply contribution_calories. }
  assert (Hm : forall field,
             (forall e, entry_ok e ->
                        exists q, contribution field d e = Num q /\ (0 <= q)%Q) ->
             Forall (fun v => exists q, v = Num q /\ (0 <= q)%Q)
                    (map (contribution field d) (matched_foods d))).
  { intros field Hf. apply Forall_map. eapply Forall_impl; [|exact Hok].
    exact Hf. }
  destruct (sum_of_bound _ _ Hc) as (qc & Qc & Bc).
  destruct (sum_of_bound _ _
              (Hm protein (fun e He => proj1 (contribution_macro d e He))))
    as (qp & Qp & Bp).
  destruct (sum_of_bound _ _
              (Hm carbs (fun e He => proj1 (proj2 (contribution_macro d e He)))))
    as (qb & Qb & Bb).
  destruct (sum_of_bound _ _
              (Hm fat (fun e He => proj2 (proj2 (contribution_macro d e He)))))
    as (qf & Qf & Bf).
  exists qc, qp, qb, qf.
  rewrite Ec, Ep, Eb, Ef, En. repeat split; try assumption; try lra.
  rewrite length_map in Bc. lra.
Qed.

End Bounds.

(* ================================================================== *)
(** * Integers as numbers *)
(* ================================================================== *)

Section Integers.

Lemma Qred_inject_Z (z : Z) : Qred (inject_Z z) = inject_Z z.
Proof. apply Qred_iff. simpl. apply Z.gcd_1_r. Qed.

Lemma add_of_Z (a b : Z) : of_Z a + of_Z b = of_Z (a + b).
Proof.
  unfold of_Z. cbn [add]. f_equal.
  rewrite <- (Qred_inject_Z (a + b)). apply Qred_complete.
  now rewrite inject_Z_plus.
Qed.

Lemma mul_of_Z (a b : Z) : of_Z a * of_Z b = of_Z (a * b).
Proof.
  unfold of_Z. cbn [mul]. f_equal.
  rewrite <- (Qred_inject_Z (a * b)). apply Qred_complete.
  now rewrite inject_Z_mult.
Qed.

Lemma min_of_Z (a b : Z) : Math_min (of_Z a) (of_Z b) = of_Z (Z.min a b).
Proof.
  unfold of_Z, Math_min, le.
  destruct (Qle_bool (inject_Z a) (inject_Z b)) eqn:E.
  - apply Qle_bool_iff in E. rewrite <- Zle_Qle in E.
    now rewrite Z.min_l.
  - assert (~ (a <= b)%Z).
    { intros H. apply inject_Z_le, Qle_bool_iff in H. congruence. }
    now rewrite Z.min_r by lia.
Qed.

Lemma round_lower (q : Q) (z : Z) :
  (inject_Z z <= q)%Q -> (z <= Qfloor (q + (1 # 2)))%Z.
Proof.
  intros H. rewrite <- (Qfloor_Z z). apply Qfloor_resp_le. lra.
Qed.

End Integers.

(* ================================================================== *)
(** * The estimator: calories *)
(* ================================================================== *)

Section Calories.

Lemma split_at_length (is_sep : N -> bool) (s : jsstring) :
  length (split_at is_sep s) = S (length (filter is_sep s)).
Proof.
  induction s as [|c s IH]; simpl; [reflexivity|].
  destruct (is_sep c); simpl; [now rewrite IH|].
  destruct (split_at is_sep s); simpl in *; lia.
Qed.

(** The calories of the generic estimate, as an integer. *)
Lemma generic_estimate_calories (s : jsstring) :
  calories (generic_estimate s)
  = Some (of_Z (Z.min (100 + Z.of_nat (length (split 32 s)) * 50) 800)).
Proof.
  unfold generic_estimate. cbn [calories]. unfold of_nat.
  change (Num 100) with (of_Z 100). change (Num 50) with (of_Z 50).
  change (Num 800) with (of_Z 800).
  now rewrite mul_of_Z, add_of_Z, min_of_Z.
Qed.

Lemma matched_estimate_calories (t : Totals) :
  calories (matched_estimate t) = Some (Math_round (totalCalories t)).
Proof.
  unfold matched_estimate.
  match goal with |- context [if ?c then _ else _] => destruct c end;
    reflexivity.
Qed.

(** The calories of every estimate: an integer, at least 1, and at least
    150 when no food matched. *)
Lemma parseMeal_calories (s : jsstring) :
  exists z : Z,
    calories (parseMeal s) = Some (of_Z z) /\ (1 <= z)%Z
    /\ (matchCount (accumulate (toLowerCase s)) = 0%nat -> (150 <= z)%Z).
Proof.
  unfold parseMeal.
  destruct (Nat.eqb_spec (matchCount (accumulate (toLowerCase s))) 0) as [E|E].
  - rewrite generic_estimate_calories. eexists. split; [reflexivity|].
    unfold split. rewrite split_at_length. lia.
  - rewrite matched_estimate_calories.
    destruct (accumulate_values (toLowerCase s))
      as (qc & qp & qb & qf & -> & _ & _ & _ & Hc & _).
    cbn [Math_round]. eexists. split; [reflexivity|].
    split; [|tauto]. apply round_lower.
    eapply Qle_trans; [|exact Hc]. apply inject_Z_le. lia.
Qed.

End Calories.

(** C4: for every string the estimator returns an estimate whose calories
    field is a number that is neither NaN nor negative; it is an integer. *)
Theorem parseMeal_calories_nonneg (s : jsstring) :
  exists z : Z,
    calories (parseMeal s) = Some (of_Z z) /\ (0 <= z)%Z
    /\ isNaN (of_Z z) = false.
Proof.
  destruct (parseMeal_calories s) as (z & E & H & _).
  exists z. repeat split; [exact E | lia].
Qed.

(** C10: the calories of every estimate are a non-null integer of at least
    1, and of at least 150 when no food matched; so the formatter applied
    to an estimate of the estimator never returns the fixed message. *)
Theorem formatParsedMeal_parseMeal_never_unable
        (toString : number -> jsstring) (s : jsstring) :
  (exists z : Z,
      calories (parseMeal s) = Some (of_Z z) /\ (1 <= z)%Z
      /\ (matchCount (accumulate (toLowerCase s)) = 0%nat -> (150 <= z)%Z))
  /\ formatParsedMeal toString (parseMeal s) <> unable.
Proof.
  split; [apply parseMeal_calories|].
  rewrite formatParsedMeal_unable_iff.
  destruct (parseMeal_calories s) as (z & -> & H & _).
  unfold truthy_opt, truthy, of_Z, is_zero, inject_Z. cbn [Qnum].
  destruct (Z.eqb_spec z 0); [lia | cbn [negb]; discriminate].
Qed.

(** C1, on the code: "coffee" matches one food whose macros are all 0, so
    the implied calories are 0 while the calories are 2; the rescaling is
    not skipped, its ratio is 2 / 0 = Infinity, and each macro becomes
    0 * Infinity = NaN. *)
Theorem parseMeal_coffee_NaN :
  implied_before (accumulate (toLowerCase (js "coffee"))) = Num 0
  /\ calories (parseMeal (js "coffee")) = Some (Num 2)
  /\ protein (parseMeal (js "coffee")) = Some NaN
  /\ carbs (parseMeal (js "coffee")) = Some NaN
  /\ fat (parseMeal (js "coffee")) = Some NaN.
Proof. repeat split; vm_compute; reflexivity. Qed.

(* ================================================================== *)
(** * The estimator: no food matched *)
(* ================================================================== *)

Section NoMatch.

Lemma filter_none {A} (f : A -> bool) (l : list A) :
  (forall x, In x l -> f x = false) -> filter f l = [].
Proof.
  induction l as [|x l IH]; intros H; simpl; [reflexivity|].
  rewrite (H x (or_introl eq_refl)). apply IH. intros y Hy. apply H. now right.
Qed.

Lemma matchCount_matched_foods (d : jsstring) :
  matchCount (accumulate d) = length (matched_foods d).
Proof. apply accumulate_sums. Qed.

Lemma no_match_matchCount (d : jsstring) :
  (forall e, In e (Object_entries mockFoodDatabase) -> includes d (fst e) = false) ->
  matchCount (accumulate d) = 0%nat.
Proof.
  intros H. rewrite matchCount_matched_foods. unfold matched_foods.
  now rewrite filter_none.
Qed.

Lemma baseCals_of_Z (n : nat) :
  Math_min (Num 100 + of_nat n * Num 50) (Num 800)
  = of_Z (Z.min (100 + Z.of_nat n * 50) 800).
Proof.
  unfold of_nat.
  change (Num 100) with (of_Z 100). change (Num 50) with (of_Z 50).
  change (Num 800) with (of_Z 800).
  now rewrite mul_of_Z, add_of_Z, min_of_Z.
Qed.

Lemma split_spaces (s : jsstring) :
  length (split 32 s) = S (count_occ N.eq_dec s 32%N).
Proof.
  unfold split. rewrite split_at_length. f_equal.
  induction s as [|c s IH]; simpl; [reflexivity|].
  destruct (N.eqb_spec c 32) as [->|E]; destruct (N.eq_dec _ _); simpl;
    congruence.
Qed.

End NoMatch.

Section GenericMacros.

Lemma generic_calories_all (n : nat) :
  (1 <= n)%nat ->
  In (Z.min (100 + Z.of_nat n * 50) 800) generic_calories.
Proof.
  intros H. unfold generic_calories.
  destruct (Nat.le_gt_cases 14 n) as [L|L].
  - rewrite Z.min_r by lia. cbn [In]. tauto.
  - do 14 (destruct n as [|n]; [cbn; tauto || lia|]). lia.
Qed.

(** On each of them, rounding the share computed in binary64 gives the
    integer that rounding the exact share gives. *)
Lemma generic_macros_binary64 :
  Forall
    (fun baseCals =>
       Math_round (Binary64.value (Binary64.protein_share baseCals))
       = Math_round (of_Z baseCals * Num 0.15 / Num 4)
       /\ Math_round (Binary64.value (Binary64.carbs_share baseCals))
          = Math_round (of_Z baseCals * Num 0.5 / Num 4)
       /\ Math_round (Binary64.value (Binary64.fat_share baseCals))
          = Math_round (of_Z baseCals * Num 0.35 / Num 9))
    generic_calories.
Proof. repeat constructor; vm_compute; reflexivity. Qed.

(** So the macros of the generic estimate are those of the binary64
    computation, whatever the description. *)
Lemma generic_estimate_binary64 (s : jsstring) :
  let baseCals := Z.min (100 + Z.of_nat (length (split 32 s)) * 50) 800 in
  protein (generic_estimate s)
  = Some (Math_round (Binary64.value (Binary64.protein_share baseCals)))
  /\ carbs (generic_estimate s)
     = Some (Math_round (Binary64.value (Binary64.carbs_share baseCals)))
  /\ fat (generic_estimate s)
     = Some (Math_round (Binary64.value (Binary64.fat_share baseCals))).
Proof.
  intros baseCals.
  assert (H : In baseCals generic_calories).
  { apply generic_calories_all. unfold split. rewrite split_at_length. lia. }
  pose proof generic_macros_binary64 as A. rewrite Forall_forall in A.
  destruct (A baseCals H) as (-> & -> & ->).
  unfold generic_estimate. cbn [protein carbs fat].
  rewrite baseCals_of_Z. fold baseCals. now repeat split.
Qed.

End GenericMacros.

(** C7, as the code has it: when no food of the lexicon occurs in the
    lower-cased description, the estimate is the generic one.  Its word
    count is the number of pieces between space characters (U+0020), that
    is one more than the number of spaces: an empty description has one
    word, and a tab or a line break does not separate words.  Calories are
    min(100 + words*50, 800) and the macros are the rounded shares of the
    calories; confidence is 0.3, which is below 0.5; the empty description
    has 150 calories. *)
Theorem parseMeal_no_match (s : jsstring) :
  (forall e, In e (Object_entries mockFoodDatabase) ->
             includes (toLowerCase s) (fst e) = false) ->
  let words := length (split 32 s) in
  let cals := of_Z (Z.min (100 + Z.of_nat words * 50) 800) in
  words = S (count_occ N.eq_dec s 32%N)
  /\ parseMeal s
     = {| calories := Some cals;
          protein := Some (Math_round (cals * Num 0.15 / Num 4));
          carbs := Some (Math_round (cals * Num 0.5 / Num 4));
          fat := Some (Math_round (cals * Num 0.35 / Num 9));
          confidence := Some (Num 0.3) |}
  /\ (Num 0.5 > Num 0.3) = true
  /\ calories (parseMeal (js "")) = Some (Num 150)
  /\ confidence (parseMeal (js "")) = Some (Num 0.3).
Proof.
  intros H words cals. split; [apply split_spaces|].
  split; [|repeat split; vm_compute; reflexivity].
  unfold parseMeal. rewrite (no_match_matchCount _ H). cbn [Nat.eqb].
  unfold generic_estimate. fold words. rewrite baseCals_of_Z. reflexivity.
Qed.

Lemma parseMeal_no_match_witness :
  parseMeal (js "mystery food item")
  = {| calories := Some (Num 250); protein := Some (Num 9);
       carbs := Some (Num 31); fat := Some (Num 10);
       confidence := Some (Num 0.3) |}.
Proof.
  refine (eq_trans
            (proj1 (proj2 (parseMeal_no_match (js "mystery food item") _))) _).
  - intros e He. rewrite entries_of_mockFoodDatabase in He.
    repeat (destruct He as [<-|He]; [vm_compute; reflexivity|]).
    destruct He.
  - vm_compute. reflexivity.
Defined.

(** C7, as stated, fails: "a", a tab, "b" is two words separated by white
    space and matches no food, so the specification gives it 100 + 2*50 = 200
    calories; the code, which splits at spaces only, counts one word and
    returns 150. *)
Lemma parseMeal_tab_is_no_separator :
  matched_foods (toLowerCase [97; 9; 98]%N) = []
  /\ whitespace_words [97; 9; 98]%N = 2%nat
  /\ Math_min (Num 100 + of_nat (whitespace_words [97; 9; 98]%N) * Num 50)
              (Num 800) = Num 200
  /\ calories (parseMeal [97; 9; 98]%N) = Some (Num 150)
  /\ calories (parseMeal [97; 9; 98]%N)
     <> Some (Math_min
                (Num 100 + of_nat (whitespace_words [97; 9; 98]%N) * Num 50)
                (Num 800)).
Proof.
  repeat split; try (vm_compute; reflexivity).
  vm_compute. discriminate.
Qed.

(* ================================================================== *)
(** * Case conversion *)
(* ================================================================== *)

Section CaseConversion.

Local Open Scope N_scope.

Ltac unit_cases :=
  unfold lower_unit, upper_unit;
  repeat (match goal with
          | |- context [N.leb ?a ?b] => destruct (N.leb_spec a b)
          | |- context [N.eqb ?a ?b] => destruct (N.eqb_spec a b)
          end;
          cbn [andb orb negb flat_map app filter length]);
  subst.




Lemma toLowerCase_app (s t : jsstring) :
  toLowerCase (s ++ t) = toLowerCase s ++ toLowerCase t.
Proof. apply flat_map_app. Qed.







Lemma lower_upper_unit_ascii (c : N) :
  c < 128 -> toLowerCase (upper_unit c) = lower_unit c.
Proof.
  intros H. unfold toLowerCase. unfold upper_unit.
  destruct (N.leb_spec 97 c); destruct (N.leb_spec c 122); cbn [andb].
  1: { cbn [flat_map]. unit_cases; try reflexivity; try lia.
       f_equal. lia. }
  all: destruct (N.eqb_spec c 0x17F); [lia|];
    destruct (N.eqb_spec c 0x131); [lia|];
    destruct (N.eqb_spec c 0xDF); [lia|];
    cbn [flat_map]; now rewrite app_nil_r.
Qed.

(** On a string of Basic Latin characters, lower-casing after upper-casing
    is lower-casing. *)
Lemma lower_upper_ascii (s : jsstring) :
  Forall (fun c => c < 128) s -> toLowerCase (toUpperCase s) = toLowerCase s.
Proof.
  induction 1 as [|c s Hc _ IH]; [reflexivity|].
  change (toUpperCase (c :: s)) with (upper_unit c ++ toUpperCase s).
  change (toLowerCase (c :: s)) with (lower_unit c ++ toLowerCase s).
  now rewrite toLowerCase_app, lower_upper_unit_ascii, IH.
Qed.

End CaseConversion.

Section CaseOfDescription.


End CaseOfDescription.




(* ================================================================== *)
(** * Substrings and patterns *)
(* ================================================================== *)

Section Matching.

Lemma startsWith_spec (p s : jsstring) :
  startsWith p s = true <-> exists rest, s = p ++ rest.
Proof.
  revert s. induction p as [|c p IH]; intros s; simpl.
  - split; eauto.
  - destruct s as [|d s].
    + split; [discriminate | intros [rest H]; discriminate].
    + rewrite andb_true_iff, N.eqb_eq, IH. split.
      * intros [-> [rest ->]]. eauto.
      * intros [rest H]. injection H as -> ->. eauto.
Qed.

(** [includes] is the substring test. *)
Lemma includes_spec (s sub : jsstring) :
  includes s sub = true <-> substring sub s.
Proof.
  unfold substring. induction s as [|c s IH]; simpl.
  - rewrite orb_false_r, startsWith_spec. split.
    + intros [rest H]. exists [], rest. exact H.
    + intros (before & rest & H).
      destruct before; [eauto | discriminate].
  - rewrite orb_true_iff, startsWith_spec, IH. split.
    + intros [[rest H]|(before & rest & H)].
      * exists [], rest. exact H.
      * exists (c :: before), rest. now rewrite H.
    + intros ([|c' before] & rest & H).
      * left. eauto.
      * right. injection H as -> ->. eauto.
Qed.

Lemma dropPrefix_spec (p s rest : jsstring) :
  dropPrefix p s = Some rest <-> s = p ++ rest.
Proof.
  revert s. induction p as [|c p IH]; intros s; simpl.
  - split; congruence.
  - destruct s as [|d s]; [split; discriminate|].
    destruct (N.eqb_spec c d) as [->|E].
    + rewrite IH. split; congruence.
    + split; [discriminate | congruence].
Qed.

Lemma more_spaces_spec (s : jsstring) (k : jsstring -> bool) :
  more_spaces s k = true
  <-> exists ws rest, s = ws ++ rest
                      /\ Forall (fun c => is_space c = true) ws
                      /\ k rest = true.
Proof.
  induction s as [|c s IH]; simpl.
  - rewrite orb_false_r. split.
    + intros H. exists [], []. auto.
    + intros (ws & rest & H & _ & K).
      symmetry in H. apply app_eq_nil in H. destruct H as [_ ->]. exact K.
  - rewrite orb_true_iff, andb_true_iff, IH. split.
    + intros [K|[Hc (ws & rest & -> & Hws & K)]].
      * exists [], (c :: s). auto.
      * exists (c :: ws), rest. auto.
    + intros ([|c' ws] & rest & H & Hws & K).
      * left. simpl in H. now subst.
      * right. injection H as -> ->. inversion Hws; subst. eauto 6.
Qed.

(** The matcher is sound and complete for the strings of the pattern. *)
Lemma match_at_spec (r : regex) (s : jsstring) (k : jsstring -> bool) :
  match_at r s k = true
  <-> exists w rest, s = w ++ rest /\ matches r w /\ k rest = true.
Proof.
  revert s k. induction r as [l| |a IHa b IHb|a IHa b IHb]; intros s k; simpl.
  - destruct (dropPrefix l s) as [rest|] eqn:E.
    + apply dropPrefix_spec in E. subst s. split.
      * intros K. exists l, rest. auto.
      * intros (w & rest' & H & -> & K).
        apply app_inv_head in H. now subst.
    + split; [discriminate|].
      intros (w & rest & H & -> & _).
      apply dropPrefix_spec in H. congruence.
  - destruct s as [|c s].
    + split; [discriminate|].
      intros (w & rest & H & [Hw _] & _).
      symmetry in H. apply app_eq_nil in H. tauto.
    + rewrite andb_true_iff, more_spaces_spec. split.
      * intros [Hc (ws & rest & -> & Hws & K)].
        exists (c :: ws), rest. repeat split; auto. discriminate.
      * intros ([|c' w] & rest & H & [Hw Hs] & K); [tauto|].
        injection H as -> ->. inversion Hs; subst. eauto 6.
  - rewrite IHa. split.
    + intros (u & rest & -> & Hu & K). apply IHb in K.
      destruct K as (v & rest' & -> & Hv & K).
      exists (u ++ v), rest'. rewrite <- app_assoc. eauto 8.
    + intros (w & rest & -> & (u & v & -> & Hu & Hv) & K).
      exists u, (v ++ rest). rewrite <- app_assoc.
      repeat split; auto. apply IHb. eauto.
  - rewrite orb_true_iff, IHa, IHb. split.
    + intros [(w & rest & H)|(w & rest & H)]; exists w, rest; tauto.
    + intros (w & rest & H & [Hw|Hw] & K); [left|right]; eauto.
Qed.

Lemma test_spec (r : regex) (s : jsstring) :
  test r s = true
  <-> exists before w rest, s = before ++ w ++ rest /\ matches r w.
Proof.
  induction s as [|c s IH]; simpl.
  - rewrite orb_false_r, match_at_spec. split.
    + intros (w & rest & H & Hw & _). exists [], w, rest. auto.
    + intros ([|c before] & w & rest & H & Hw); [|discriminate].
      exists w, rest. auto.
  - rewrite orb_true_iff, match_at_spec, IH. split.
    + intros [(w & rest & H & Hw & _)|(before & w & rest & -> & Hw)].
      * exists [], w, rest. auto.
      * exists (c :: before), w, rest. auto.
    + intros ([|c' before] & w & rest & H & Hw).
      * left. exists w, rest. auto.
      * right. injection H as -> ->. eauto.
Qed.

(** The pattern of a quantity word and a food matches in a description
    exactly when the word is adjacent to the food in it. *)
Lemma test_pattern (quantityWord food s : jsstring) :
  test (pattern quantityWord food) s = true <-> adjacent quantityWord food s.
Proof.
  rewrite test_spec. unfold adjacent, next_to, pattern. simpl. split.
  - intros (before & w & rest & -> & [H|H]);
      destruct H as (u & v & -> & -> & ws & f & -> & [Hne Hws] & ->);
      [left|right]; exists before, ws, rest; rewrite <- !app_assoc; auto.
  - intros [(before & ws & rest & -> & Hne & Hws)
           |(before & ws & rest & -> & Hne & Hws)].
    + exists before, (quantityWord ++ ws ++ food), rest.
      rewrite <- !app_assoc. split; [reflexivity|]. left. eauto 10.
    + exists before, (food ++ ws ++ quantityWord), rest.
      rewrite <- !app_assoc. split; [reflexivity|]. right. eauto 10.
Qed.

End Matching.

(* ================================================================== *)
(** * The estimator: multipliers and matched foods *)
(* ================================================================== *)

Section FirstMatch.

Lemma find_first {A} (f : A -> bool) (l : list A) :
  (exists l1 x l2, l = l1 ++ x :: l2 /\ f x = true
                   /\ (forall y, In y l1 -> f y = false)
                   /\ find f l = Some x)
  \/ ((forall y, In y l -> f y = false) /\ find f l = None).
Proof.
  induction l as [|x l IH]; simpl.
  - right. split; [tauto | reflexivity].
  - destruct (f x) eqn:E.
    + left. exists [], x, l. repeat split; auto. intros y [].
    + destruct IH as [(l1 & y & l2 & -> & Hy & Hl1 & F)|[Hl F]].
      * left. exists (x :: l1), y, l2. repeat split; auto.
        intros z [<-|Hz]; auto.
      * right. split; [|exact F]. intros y [<-|Hy]; auto.
Qed.

Lemma not_adjacent (quantityWord food s : jsstring) :
  test (pattern quantityWord food) s = false <-> ~ adjacent quantityWord food s.
Proof.
  rewrite <- test_pattern. destruct (test _ s); split; congruence.
Qed.

End FirstMatch.

(** C6: the multiplier of a food is the value of the first entry of the
    quantity lexicon, in the order in which the loop enumerates it, whose
    word is adjacent to the food in the description: the word, one or more
    white spaces and the food, or the food, one or more white spaces and
    the word.  When no entry is adjacent the multiplier is 1.  The
    enumeration puts the numerals first.  "large salad" has 30 calories. *)
Theorem find_multiplier_first_adjacent (lowerDesc food : jsstring) :
  ((exists earlier quantityWord value later,
       Object_entries quantities = earlier ++ (quantityWord, value) :: later
       /\ adjacent quantityWord food lowerDesc
       /\ (forall e, In e earlier -> ~ adjacent (fst e) food lowerDesc)
       /\ find_multiplier lowerDesc food = value)
   \/ ((forall e, In e (Object_entries quantities) ->
                  ~ adjacent (fst e) food lowerDesc)
       /\ find_multiplier lowerDesc food = Num 1))
  /\ map fst (Object_entries quantities)
     = [js "2"; js "3"; js "4"; js "two"; js "three"; js "four";
        js "double"; js "large"; js "small"; js "half"]
  /\ calories (parseMeal (js "large salad")) = Some (Num 30).
Proof.
  split; [|split; vm_compute; reflexivity].
  unfold find_multiplier.
  destruct (find_first (fun e => test (pattern (fst e) food) lowerDesc)
                       (Object_entries quantities))
    as [(l1 & [w v] & l2 & E & Hx & Hl1 & ->)|[Hl ->]].
  - left. exists l1, w, v, l2. repeat split; auto.
    + now apply test_pattern.
    + intros e He. apply not_adjacent. auto.
  - right. split; [|reflexivity].
    intros e He. apply not_adjacent. auto.
Qed.

(** C5: the matched foods are the entries of the food lexicon whose key is
    a substring of the lower-cased description; each adds its own values,
    times its own multiplier, to the totals, and counts once, whether or
    not its key lies inside another matched key.  A description that
    contains "chicken breast" matches both the "chicken" and the "chicken
    breast" entries.  "chicken and rice" has calories 370, protein 35,
    carbs 45 and fat 4. *)
Theorem parseMeal_overlapping_matches (s : jsstring) :
  let d := toLowerCase s in
  (forall e, In e (matched_foods d)
             <-> In e (Object_entries mockFoodDatabase) /\ substring (fst e) d)
  /\ totalCalories (accumulate d)
     = sum_of (map (contribution calories d) (matched_foods d))
  /\ totalProtein (accumulate d)
     = sum_of (map (contribution protein d) (matched_foods d))
  /\ totalCarbs (accumulate d)
     = sum_of (map (contribution carbs d) (matched_foods d))
  /\ totalFat (accumulate d)
     = sum_of (map (contribution fat d) (matched_foods d))
  /\ matchCount (accumulate d) = length (matched_foods d)
  /\ (substring (js "chicken breast") d ->
      In (js "chicken", food_entry 165 31 0 4) (matched_foods d)
      /\ In (js "chicken breast", food_entry 165 31 0 4) (matched_foods d))
  /\ calories (parseMeal (js "chicken and rice")) = Some (Num 370)
  /\ protein (parseMeal (js "chicken and rice")) = Some (Num 35)
  /\ carbs (parseMeal (js "chicken and rice")) = Some (Num 45)
  /\ fat (parseMeal (js "chicken and rice")) = Some (Num 4).
Proof.
  intros d.
  assert (M : forall e, In e (matched_foods d)
                        <-> In e (Object_entries mockFoodDatabase)
                            /\ substring (fst e) d).
  { intros e. now rewrite matched_foods_In, includes_spec. }
  split; [exact M|].
  destruct (accumulate_sums d) as (Ec & Ep & Eb & Ef & En).
  repeat (split; [assumption|]).
  split; [|repeat split; vm_compute; reflexivity].
  intros (before & rest & H). split; apply M; split.
  - rewrite entries_of_mockFoodDatabase. unfold mockFoodDatabase.
    do 11 right. left. reflexivity.
  - exists before, (js " breast" ++ rest). rewrite H. reflexivity.
  - rewrite entries_of_mockFoodDatabase. unfold mockFoodDatabase.
    do 12 right. left. reflexivity.
  - exists before, rest. exact H.
Qed.

(* ================================================================== *)
(** * The estimator: reconciliation *)
(* ================================================================== *)

Section Enumeration.

Variable d : jsstring.

Lemma add_food_add_with (t : Totals) (e : jsstring * ParsedMeal) :
  add_food d t e = add_with t (snd e) (find_multiplier d (fst e)).
Proof. reflexivity. Qed.

Lemma find_multiplier_value (food : jsstring) :
  In (find_multiplier d food) multiplier_values.
Proof.
  pose proof (find_multiplier_in d food) as H.
  unfold multipliers in H. rewrite entries_of_quantities in H.
  cbn [map snd] in H. unfold multiplier_values.
  repeat (destruct H as [<-|H]; [cbn [In]; tauto|]). destruct H.
Qed.

Lemma add_with_calories (t : Totals) (e : jsstring * ParsedMeal) (q : Q) :
  entry_ok e -> totalCalories t = Num q ->
  exists q', totalCalories (add_food d t e) = Num q' /\ (q <= q')%Q.
Proof.
  intros He Ht.
  destruct (contribution_calories d e He) as (x & Hx & Hx1).
  unfold add_food. cbn [totalCalories]. rewrite Ht, Hx.
  eexists. split; [reflexivity|]. rewrite Qred_correct. lra.
Qed.

Lemma light_spec (t : Totals) (q : Q) :
  totalCalories t = Num q -> (light t = true <-> (q < 85 # 2)%Q).
Proof.
  intros H. unfold light. rewrite H.
  rewrite negb_true_iff, <- not_true_iff_false, Qle_bool_iff.
  split; [apply Qnot_le_lt | apply Qlt_not_le].
Qed.

(** A light total at the end of a run was light all along, so the run
    stayed inside the totals that [grow] collects. *)
Lemma grow_reaches (l : list (jsstring * ParsedMeal))
      (reached : list Totals) (t : Totals) (q : Q) :
  Forall entry_ok l ->
  totalCalories t = Num q ->
  (light t = true -> In t reached) ->
  light (fold_left (check_food d) l t) = true ->
  In (fold_left (check_food d) l t) (fold_left grow l reached).
Proof.
  intros Hl. revert reached t q.
  induction Hl as [|e l He _ IH]; intros reached t q Ht Hin Hlight.
  - apply Hin, Hlight.
  - cbn [fold_left] in *. rewrite check_food_add_food in *.
    destruct (includes d (fst e)).
    + destruct (add_with_calories t e q He Ht) as (q' & Hq' & Hle).
      apply (IH _ _ q' Hq'); [|exact Hlight].
      intros L. unfold grow. apply in_or_app. right.
      apply filter_In. split; [|exact L].
      apply in_flat_map. exists t. split.
      * apply Hin. apply (light_spec t q Ht).
        apply (light_spec _ q' Hq') in L. lra.
      * rewrite add_food_add_with. apply in_map, find_multiplier_value.
    + apply (IH _ _ q Ht); [|exact Hlight].
      intros L. unfold grow. apply in_or_app. left. auto.
Qed.

Lemma accumulate_light :
  light (accumulate d) = true -> In (accumulate d) light_totals.
Proof.
  unfold accumulate, light_totals.
  apply (grow_reaches _ [noTotals] noTotals 0%Q).
  - apply mockFoodDatabase_ok.
  - reflexivity.
  - intros _. now left.
Qed.

End Enumeration.

Lemma light_totals_ok : forallb tolerance_ok light_totals = true.
Proof. vm_compute. reflexivity. Qed.

Section Reconciliation.

Lemma sub_of_Z (a b : Z) : of_Z a - of_Z b = of_Z (a - b).
Proof.
  unfold of_Z, sub. cbn [neg add]. f_equal.
  rewrite <- (Qred_inject_Z (a - b)). apply Qred_complete.
  rewrite Qred_correct. unfold Z.sub. rewrite inject_Z_plus, inject_Z_opp.
  reflexivity.
Qed.

Lemma abs_of_Z (z : Z) : Math_abs (of_Z z) = of_Z (Z.abs z).
Proof.
  unfold of_Z. cbn [Math_abs]. f_equal.
  change (Qabs (inject_Z z)) with (inject_Z (Z.abs z)). apply Qred_inject_Z.
Qed.

Lemma implied_of_Z (p b f : Z) :
  implied_calories (of_Z p) (of_Z b) (of_Z f) = of_Z (p * 4 + b * 4 + f * 9).
Proof.
  unfold implied_calories.
  change (Num 4) with (of_Z 4). change (Num 9) with (of_Z 9).
  now rewrite !mul_of_Z, !add_of_Z.
Qed.

(** The test of the tolerance on integers. *)
Lemma tolerance_of_Z (c p b f : Z) :
  within_tolerance (Num 0)
    {| calories := Some (of_Z c); protein := Some (of_Z p);
       carbs := Some (of_Z b); fat := Some (of_Z f); confidence := None |} = true
  <-> (inject_Z (Z.abs (p * 4 + b * 4 + f * 9 - c)) <= inject_Z c * 0.2)%Q.
Proof.
  unfold within_tolerance. cbn [calories protein carbs fat].
  rewrite implied_of_Z, sub_of_Z, abs_of_Z.
  unfold of_Z. cbn [mul add le]. rewrite Qle_bool_iff, !Qred_correct.
  split; intros H; lra.
Qed.

Lemma tolerance_fields (r : ParsedMeal) (c p b f : Z) :
  calories r = Some (of_Z c) -> protein r = Some (of_Z p) ->
  carbs r = Some (of_Z b) -> fat r = Some (of_Z f) ->
  (within_tolerance (Num 0) r = true
   <-> (inject_Z (Z.abs (p * 4 + b * 4 + f * 9 - c)) <= inject_Z c * 0.2)%Q).
Proof.
  intros Hc Hp Hb Hf. rewrite <- tolerance_of_Z.
  unfold within_tolerance. rewrite Hc, Hp, Hb, Hf. reflexivity.
Qed.

Lemma round_bounds (x : Q) :
  (inject_Z (Qfloor (x + (1 # 2))) <= x + (1 # 2))%Q
  /\ (x - (1 # 2) < inject_Z (Qfloor (x + (1 # 2))))%Q.
Proof.
  split; [apply Qfloor_le|].
  pose proof (Qlt_floor (x + (1 # 2))) as H.
  rewrite inject_Z_plus in H. change (inject_Z 1) with 1%Q in H. lra.
Qed.

(** Rescaling by calories / implied calories leaves the macros within 8.5
    calories of the anchor, which is within a fifth of it from 43 on. *)
Lemma rescaled_within (c p b f : Z) :
  (43 <= c)%Z -> (p * 4 + b * 4 + f * 9 <> 0)%Z ->
  let ratio := (inject_Z c / inject_Z (p * 4 + b * 4 + f * 9))%Q in
  let p' := Qfloor (inject_Z p * ratio + (1 # 2)) in
  let b' := Qfloor (inject_Z b * ratio + (1 # 2)) in
  let f' := Qfloor (inject_Z f * ratio + (1 # 2)) in
  (inject_Z (Z.abs (p' * 4 + b' * 4 + f' * 9 - c)) <= inject_Z c * 0.2)%Q.
Proof.
  intros Hc HI ratio p' b' f'.
  destruct (round_bounds (inject_Z p * ratio)) as [Pu Pl].
  destruct (round_bounds (inject_Z b * ratio)) as [Bu Bl].
  destruct (round_bounds (inject_Z f * ratio)) as [Fu Fl].
  fold p' in Pu, Pl. fold b' in Bu, Bl. fold f' in Fu, Fl.
  assert (E : (inject_Z p * ratio * 4 + inject_Z b * ratio * 4
               + inject_Z f * ratio * 9 == inject_Z c)%Q).
  { unfold ratio. rewrite !inject_Z_plus, !inject_Z_mult.
    change (inject_Z 4) with 4%Q. change (inject_Z 9) with 9%Q.
    assert (HIq : ~ (inject_Z (p * 4 + b * 4 + f * 9) == 0)%Q).
    { intros H. apply HI. now apply (inject_Z_injective _ 0). }
    rewrite !inject_Z_plus, !inject_Z_mult in HIq.
    change (inject_Z 4) with 4%Q in HIq. change (inject_Z 9) with 9%Q in HIq.
    field. exact HIq. }
  apply inject_Z_le in Hc. change (inject_Z 43) with 43%Q in Hc.
  change (inject_Z (Z.abs ?z)) with (Qabs (inject_Z z)).
  apply Qabs_Qle_condition.
  unfold Z.sub. rewrite !inject_Z_plus, inject_Z_opp, !inject_Z_mult.
  change (inject_Z 4) with 4%Q. change (inject_Z 9) with 9%Q.
  split; lra.
Qed.

Lemma rescale_of_Z (x c i : Z) :
  i <> 0%Z ->
  Math_round (of_Z x * (of_Z c / of_Z i))
  = of_Z (Qfloor (inject_Z x * (inject_Z c / inject_Z i) + (1 # 2))).
Proof.
  intros Hi. unfold of_Z at 2 3. cbn [div].
  replace (is_zero (inject_Z i)) with false
    by (symmetry; apply Z.eqb_neq; exact Hi).
  unfold of_Z at 1. cbn [mul Math_round]. f_equal.
  apply Qfloor_comp. now rewrite !Qred_correct.
Qed.

Lemma is_Num0_spec (x : number) : is_Num0 x = true -> x = Num 0.
Proof.
  destruct x as [[[| |] [| |]]| |]; simpl; try discriminate. reflexivity.
Qed.

(** From 42.5 calories on, the estimate is within tolerance as soon as the
    rounded macros imply some calories. *)
Lemma matched_estimate_heavy (t : Totals) (qc qp qb qf : Q) :
  totalCalories t = Num qc -> totalProtein t = Num qp ->
  totalCarbs t = Num qb -> totalFat t = Num qf ->
  (85 # 2 <= qc)%Q ->
  implied_before t <> Num 0 ->
  within_tolerance (Num 0) (matched_estimate t) = true.
Proof.
  intros Hc Hp Hb Hf Hheavy Himplied.
  unfold implied_before in Himplied. unfold matched_estimate.
  rewrite Hc, Hp, Hb, Hf in *. cbn [Math_round] in *.
  set (c := Qfloor (qc + (1 # 2))) in *.
  set (p := Qfloor (qp + (1 # 2))) in *.
  set (b := Qfloor (qb + (1 # 2))) in *.
  set (f := Qfloor (qf + (1 # 2))) in *.
  fold (implied_calories (of_Z p) (of_Z b) (of_Z f)).
  rewrite implied_of_Z in *. rewrite sub_of_Z, abs_of_Z.
  assert (Hi : (p * 4 + b * 4 + f * 9 <> 0)%Z).
  { intros E. apply Himplied. now rewrite E. }
  assert (H43 : (43 <= c)%Z).
  { unfold c. rewrite <- (Qfloor_Z 43). apply Qfloor_resp_le.
    change (inject_Z 43) with 43%Q. lra. }
  destruct (of_Z (Z.abs (p * 4 + b * 4 + f * 9 - c)) > of_Z c * Num 0.2) eqn:G.
  - rewrite !rescale_of_Z by exact Hi.
    eapply tolerance_fields; try reflexivity.
    now apply rescaled_within.
  - eapply tolerance_fields; try reflexivity.
    unfold of_Z in G. cbn [mul gt] in G.
    apply negb_false_iff, Qle_bool_iff in G.
    now rewrite Qred_correct in G.
Qed.

Lemma parseMeal_matched (s : jsstring) :
  matchCount (accumulate (toLowerCase s)) <> 0%nat ->
  parseMeal s = matched_estimate (accumulate (toLowerCase s)).
Proof.
  intros H. unfold parseMeal.
  destruct (Nat.eqb_spec (matchCount (accumulate (toLowerCase s))) 0)
    as [E|_]; [contradiction | reflexivity].
Qed.

Lemma light_totals_tolerance (t : Totals) :
  In t light_totals -> tolerance_ok t = true.
Proof.
  intros L. pose proof light_totals_ok as A.
  rewrite forallb_forall in A. apply A. exact L.
Qed.

Lemma light_within_tolerance (t : Totals) :
  In t light_totals -> implied_before t <> Num 0 ->
  within_tolerance (Num 0) (matched_estimate t) = true.
Proof.
  intros L Himplied.
  apply light_totals_tolerance in L. unfold tolerance_ok in L.
  apply orb_true_iff in L. destruct L as [L|L]; [|exact L].
  apply is_Num0_spec in L. contradiction.
Qed.

End Reconciliation.

Section ImpliedCalories.

Lemma sum_from_member (l : list number) (lo a : Q) :
  Forall (fun v => exists q, v = Num q /\ (0 <= q)%Q) l ->
  (exists q, In (Num q) l /\ (lo <= q)%Q) ->
  exists q, fold_left add l (Num a) = Num q /\ (a + lo <= q)%Q.
Proof.
  intros H. revert a. induction H as [|v l (x & -> & Hx) Hl IH]; intros a.
  - intros (q & [] & _).
  - intros (q & [E|Hin] & Hq); cbn [fold_left add].
    + injection E as ->.
      destruct (sum_from_bound 0 l (Qred (a + q)) Hl) as (r & -> & Hr).
      exists r. split; [reflexivity|]. rewrite Qred_correct in Hr. lra.
    + destruct (IH (Qred (a + x)) (ex_intro _ q (conj Hin Hq)))
        as (r & -> & Hr).
      exists r. split; [reflexivity|]. rewrite Qred_correct in Hr. lra.
Qed.

Lemma sum_of_member (l : list number) (lo : Q) :
  Forall (fun v => exists q, v = Num q /\ (0 <= q)%Q) l ->
  (exists q, In (Num q) l /\ (lo <= q)%Q) ->
  exists q, sum_of l = Num q /\ (lo <= q)%Q.
Proof.
  intros H M. destruct (sum_from_member l lo 0 H M) as (q & E & B).
  exists q. split; [exact E | lra].
Qed.

(** Every food but coffee has a macro of at least 1 gram. *)
Lemma macro_but_coffee (e : jsstring * ParsedMeal) :
  In e (Object_entries mockFoodDatabase) -> fst e <> js "coffee" ->
  exists c p b f : Z,
    snd e = food_entry c p b f
    /\ (0 <= p)%Z /\ (0 <= b)%Z /\ (0 <= f)%Z /\ (1 <= p + b + f)%Z.
Proof.
  rewrite entries_of_mockFoodDatabase. unfold mockFoodDatabase.
  intros H Hne.
  repeat (destruct H as [<-|H];
          [first [ exfalso; apply Hne; reflexivity
                 | do 4 eexists; split; [reflexivity | lia] ] | ]).
  destruct H.
Qed.

Lemma round_of_half (q : Q) : (1 # 2 <= q)%Q -> (1 <= Qfloor (q + (1 # 2)))%Z.
Proof.
  intros H. rewrite <- (Qfloor_Z 1) at 1. apply Qfloor_resp_le.
  change (inject_Z 1) with 1%Q. lra.
Qed.

Lemma round_nonneg (q : Q) : (0 <= q)%Q -> (0 <= Qfloor (q + (1 # 2)))%Z.
Proof.
  intros H. rewrite <- (Qfloor_Z 0). apply Qfloor_resp_le.
  change (inject_Z 0) with 0%Q. lra.
Qed.

(** The rounded macros imply no calories only when coffee alone matched. *)
Lemma implied_before_coffee (d : jsstring) (e : jsstring * ParsedMeal) :
  In e (matched_foods d) -> fst e <> js "coffee" ->
  implied_before (accumulate d) <> Num 0.
Proof.
  intros Hin Hne.
  assert (Hdb : In e (Object_entries mockFoodDatabase)).
  { now apply matched_foods_In in Hin. }
  destruct (macro_but_coffee e Hdb Hne) as (c & p & b & f & E & Hp & Hb & Hf & H1).
  destruct (find_multiplier_range d (fst e)) as (m & Hm & Hlo & _).
  destruct (accumulate_sums d) as (_ & Ep & Eb & Ef & _).
  pose proof (matched_foods_ok d) as Hok.
  assert (nonneg : forall field,
             (forall e', entry_ok e' ->
                exists q, contribution field d e' = Num q /\ (0 <= q)%Q) ->
             Forall (fun v => exists q, v = Num q /\ (0 <= q)%Q)
                    (map (contribution field d) (matched_foods d))).
  { intros field Hf'. apply Forall_map. eapply Forall_impl; [|exact Hok].
    exact Hf'. }
  pose proof (nonneg protein (fun e' He => proj1 (contribution_macro d e' He))) as Np.
  pose proof (nonneg carbs
                (fun e' He => proj1 (proj2 (contribution_macro d e' He)))) as Nb.
  pose proof (nonneg fat
                (fun e' He => proj2 (proj2 (contribution_macro d e' He)))) as Nf.
  destruct (sum_of_bound 0 _ Np) as (qp & Qp & Bp).
  destruct (sum_of_bound 0 _ Nb) as (qb & Qb & Bb).
  destruct (sum_of_bound 0 _ Nf) as (qf & Qf & Bf).
  assert (member : forall (field : ParsedMeal -> option number) (x : Z),
             field (snd e) = Some (of_Z x) -> (1 <= x)%Z ->
             exists q, In (Num q) (map (contribution field d) (matched_foods d))
                       /\ (1 # 2 <= q)%Q).
  { intros field x Hx H.
    exists (Qred (inject_Z x * m)). split.
    - apply in_map_iff. exists e. split; [|exact Hin].
      unfold contribution. rewrite Hx, Hm, or0_of_Z. reflexivity.
    - rewrite Qred_correct. apply inject_Z_le in H.
      change (inject_Z 1) with 1%Q in H. nra. }
  unfold implied_before. rewrite Ep, Eb, Ef.
  assert (Hsome : (1 <= p)%Z \/ (1 <= b)%Z \/ (1 <= f)%Z) by lia.
  assert (Hz : forall x : Z, (0 < x)%Z -> of_Z x <> Num 0).
  { intros x Hx Ex. injection Ex as Ex. lia. }
  destruct Hsome as [H|[H|H]].
  - destruct (sum_of_member _ (1 # 2) Np (member protein p (f_equal protein E) H))
      as (q & Q1 & B1).
    rewrite Q1, Qb, Qf. cbn [Math_round].
    rewrite implied_of_Z. apply Hz.
    pose proof (round_of_half q ltac:(lra)).
    pose proof (round_nonneg qb ltac:(lra)).
    pose proof (round_nonneg qf ltac:(lra)). lia.
  - destruct (sum_of_member _ (1 # 2) Nb (member carbs b (f_equal carbs E) H))
      as (q & Q1 & B1).
    rewrite Q1, Qp, Qf. cbn [Math_round].
    rewrite implied_of_Z. apply Hz.
    pose proof (round_of_half q ltac:(lra)).
    pose proof (round_nonneg qp ltac:(lra)).
    pose proof (round_nonneg qf ltac:(lra)). lia.
  - destruct (sum_of_member _ (1 # 2) Nf (member fat f (f_equal fat E) H))
      as (q & Q1 & B1).
    rewrite Q1, Qp, Qb. cbn [Math_round].
    rewrite implied_of_Z. apply Hz.
    pose proof (round_of_half q ltac:(lra)).
    pose proof (round_nonneg qp ltac:(lra)).
    pose proof (round_nonneg qb ltac:(lra)). lia.
Qed.

End ImpliedCalories.

(** C3, on the inputs whose rounded macros imply some calories: on the match
    path the calories are the rounded total, untouched, and the macros of
    the returned estimate are within the tolerance,
    abs((protein*4 + carbs*4 + fat*9) - calories) <= calories*0.2, either
    because they already were or because the rescaling brought them
    there. *)
Theorem parseMeal_within_tolerance (s : jsstring) :
  matchCount (accumulate (toLowerCase s)) <> 0%nat ->
  implied_before (accumulate (toLowerCase s)) <> Num 0 ->
  calories (parseMeal s)
  = Some (Math_round (totalCalories (accumulate (toLowerCase s))))
  /\ within_tolerance (Num 0) (parseMeal s) = true.
Proof.
  intros Hmatch Himplied. rewrite (parseMeal_matched s Hmatch).
  split; [apply matched_estimate_calories|].
  destruct (accumulate_values (toLowerCase s))
    as (qc & qp & qb & qf & Hc & Hp & Hb & Hf & _).
  destruct (Qlt_le_dec qc (85 # 2)) as [L|L].
  - apply (light_spec _ _ Hc) in L. apply accumulate_light in L.
    now apply light_within_tolerance.
  - now apply (matched_estimate_heavy _ qc qp qb qf Hc Hp Hb Hf).
Qed.

Lemma parseMeal_within_tolerance_witness :
  within_tolerance (Num 0) (parseMeal (js "broccoli")) = true.
Proof.
  apply (parseMeal_within_tolerance (js "broccoli")).
  - vm_compute. discriminate.
  - vm_compute. discriminate.
Defined.

(** C3, as stated, fails on "coffee": the macros of the estimate are NaN,
    and no comparison with NaN holds, whatever epsilon is. *)
Lemma parseMeal_coffee_out_of_tolerance :
  ~ exists epsilon, within_tolerance epsilon (parseMeal (js "coffee")) = true.
Proof.
  intros [epsilon H].
  assert (E : parseMeal (js "coffee")
              = {| calories := Some (Num 2); protein := Some NaN;
                   carbs := Some NaN; fat := Some NaN;
                   confidence := Some (Num (1 # 2)) |})
    by (vm_compute; reflexivity).
  rewrite E in H. discriminate H.
Qed.

(* ================================================================== *)
(** * Further properties of the estimator *)
(* ================================================================== *)

Section OnlyCoffee.

Lemma string_eq_spec (a b : jsstring) : string_eq a b = true <-> a = b.
Proof.
  revert b. induction a as [|c a IH]; intros [|d b]; cbn [string_eq];
    try (split; [discriminate | discriminate]); [tauto|].
  rewrite andb_true_iff, N.eqb_eq, IH.
  split; [intros [-> ->]; reflexivity | intros E; injection E; auto].
Qed.

Lemma only_coffee_spec (d : jsstring) :
  only_coffee d = true
  <-> includes d (js "coffee") = true
      /\ forall e, In e (Object_entries mockFoodDatabase) ->
                   includes d (fst e) = true -> fst e = js "coffee".
Proof.
  unfold only_coffee. rewrite andb_true_iff, forallb_forall.
  split; intros [Hc H]; (split; [exact Hc|]).
  - intros e He Hi. specialize (H e He). rewrite Hi in H.
    cbn [negb orb] in H. now apply string_eq_spec.
  - intros e He. destruct (includes d (fst e)) eqn:Hi; [|reflexivity].
    cbn [negb orb]. apply string_eq_spec. now apply H.
Qed.

Lemma filter_one {A} (f : A -> bool) (l1 l2 : list A) (x : A) :
  f x = true ->
  (forall y, In y l1 -> f y = false) -> (forall y, In y l2 -> f y = false) ->
  filter f (l1 ++ x :: l2) = [x].
Proof.
  intros Hx H1 H2. rewrite filter_app. cbn [filter]. rewrite Hx.
  now rewrite (filter_none f l1 H1), (filter_none f l2 H2).
Qed.

(** When coffee alone is mentioned, the loop matches its entry and nothing
    else. *)
Lemma only_coffee_matched (d : jsstring) :
  only_coffee d = true ->
  matched_foods d = [(js "coffee", food_entry 2 0 0 0)].
Proof.
  intros H. apply only_coffee_spec in H. destruct H as [Hc H].
  assert (Hother : forall e, In e (Object_entries mockFoodDatabase) ->
                             fst e <> js "coffee" ->
                             includes d (fst e) = false).
  { intros e He Hne. destruct (includes d (fst e)) eqn:Hi; [|reflexivity].
    exfalso. apply Hne. now apply H. }
  clear H. revert Hother. unfold matched_foods.
  rewrite entries_of_mockFoodDatabase.
  change mockFoodDatabase
    with (firstn 9 mockFoodDatabase
            ++ (js "coffee", food_entry 2 0 0 0) :: skipn 10 mockFoodDatabase).
  intros Hother. apply filter_one.
  - exact Hc.
  - intros y Hy. apply Hother.
    + apply in_or_app. now left.
    + revert Hy. cbn [firstn mockFoodDatabase In].
      intros Hy. repeat (destruct Hy as [<-|Hy]; [discriminate|]).
      destruct Hy.
  - intros y Hy. apply Hother.
    + apply in_or_app. right. now right.
    + revert Hy. cbn [skipn mockFoodDatabase In].
      intros Hy. repeat (destruct Hy as [<-|Hy]; [discriminate|]).
      destruct Hy.
Qed.

(** Otherwise a match is a match of some other food. *)
Lemma not_only_coffee_matched (d : jsstring) :
  only_coffee d = false -> matched_foods d <> [] ->
  exists e, In e (matched_foods d) /\ fst e <> js "coffee".
Proof.
  intros H Hne.
  destruct (Exists_dec (fun e : jsstring * ParsedMeal => fst e <> js "coffee")
                       (matched_foods d)) as [E|E].
  { intros e. destruct (list_eq_dec N.eq_dec (fst e) (js "coffee"));
      [right | left]; tauto. }
  - apply Exists_exists in E. exact E.
  - exfalso.
    assert (A : forall e, In e (matched_foods d) -> fst e = js "coffee").
    { intros e He.
      destruct (list_eq_dec N.eq_dec (fst e) (js "coffee")) as [Y|N];
        [exact Y|].
      exfalso. apply E. apply Exists_exists. now exists e. }
    assert (T : only_coffee d = true); [|congruence].
    apply only_coffee_spec. split.
    + assert (M : exists e, In e (matched_foods d)).
      { destruct (matched_foods d) as [|e l]; [contradiction|].
        exists e. now left. }
      destruct M as [e He].
      rewrite <- (A e He). now apply matched_foods_In in He.
    + intros e He Hi. apply A. apply matched_foods_In. now split.
Qed.

End OnlyCoffee.

Section Macros.

Lemma accumulate_matched (d : jsstring) :
  accumulate d = fold_left (add_food d) (matched_foods d) noTotals.
Proof. unfold accumulate, matched_foods. apply fold_check_food. Qed.

Lemma accumulate_only_coffee (d : jsstring) :
  only_coffee d = true ->
  exists m, In m multiplier_values
            /\ accumulate d = add_with noTotals (food_entry 2 0 0 0) m.
Proof.
  intros H. exists (find_multiplier d (js "coffee")).
  split; [apply find_multiplier_value|].
  rewrite accumulate_matched, (only_coffee_matched d H).
  cbn [fold_left]. now rewrite add_food_add_with.
Qed.

(** With coffee alone, whatever its quantity, the rescaling divides by 0. *)
Lemma coffee_macros_NaN (m : number) :
  In m multiplier_values ->
  let r := matched_estimate (add_with noTotals (food_entry 2 0 0 0) m) in
  protein r = Some NaN /\ carbs r = Some NaN /\ fat r = Some NaN.
Proof.
  intros H. unfold multiplier_values in H. cbn [In] in H.
  repeat (destruct H as [<-|H]; [vm_compute; repeat split; reflexivity|]).
  destruct H.
Qed.

Lemma rescaled_nonneg (x c i : Z) :
  (0 <= x)%Z -> (0 <= c)%Z -> (0 < i)%Z ->
  (0 <= Qfloor (inject_Z x * (inject_Z c / inject_Z i) + (1 # 2)))%Z.
Proof.
  intros Hx Hc Hi. apply round_nonneg.
  apply inject_Z_le in Hx. apply inject_Z_le in Hc.
  change (inject_Z 0) with 0%Q in Hx, Hc.
  apply Qmult_le_0_compat; [exact Hx|].
  apply Qle_shift_div_l; [|lra].
  change 0%Q with (inject_Z 0). rewrite <- Zlt_Qlt. exact Hi.
Qed.

(** When the rounded totals imply some calories, the macros of the estimate
    are integers and none is negative. *)
Lemma matched_estimate_integers (t : Totals) (qc qp qb qf : Q) :
  totalCalories t = Num qc -> totalProtein t = Num qp ->
  totalCarbs t = Num qb -> totalFat t = Num qf ->
  (0 <= qc)%Q -> (0 <= qp)%Q -> (0 <= qb)%Q -> (0 <= qf)%Q ->
  implied_before t <> Num 0 ->
  exists p b f : Z,
    protein (matched_estimate t) = Some (of_Z p)
    /\ carbs (matched_estimate t) = Some (of_Z b)
    /\ fat (matched_estimate t) = Some (of_Z f)
    /\ (0 <= p)%Z /\ (0 <= b)%Z /\ (0 <= f)%Z.
Proof.
  intros Hc Hp Hb Hf Nc Np Nb Nf Himplied.
  unfold implied_before in Himplied. unfold matched_estimate.
  rewrite Hc, Hp, Hb, Hf in *. cbn [Math_round] in *.
  pose proof (round_nonneg qc Nc) as Rc.
  pose proof (round_nonneg qp Np) as Rp.
  pose proof (round_nonneg qb Nb) as Rb.
  pose proof (round_nonneg qf Nf) as Rf.
  set (c := Qfloor (qc + (1 # 2))) in *.
  set (p := Qfloor (qp + (1 # 2))) in *.
  set (b := Qfloor (qb + (1 # 2))) in *.
  set (f := Qfloor (qf + (1 # 2))) in *.
  fold (implied_calories (of_Z p) (of_Z b) (of_Z f)).
  rewrite implied_of_Z in *.
  assert (Hi : (p * 4 + b * 4 + f * 9 <> 0)%Z).
  { intros E. apply Himplied. now rewrite E. }
  destruct (Math_abs (of_Z (p * 4 + b * 4 + f * 9) - of_Z c) > of_Z c * Num 0.2).
  - cbn [protein carbs fat]. rewrite !rescale_of_Z by exact Hi.
    do 3 eexists. repeat split; try reflexivity;
      apply rescaled_nonneg; lia.
  - cbn [protein carbs fat]. exists p, b, f. repeat split; assumption.
Qed.

Lemma generic_estimate_of (s : jsstring) :
  generic_estimate s
  = generic_of (of_Z (Z.min (100 + Z.of_nat (length (split 32 s)) * 50) 800)).
Proof.
  unfold generic_estimate, generic_of. cbv zeta.
  now rewrite baseCals_of_Z.
Qed.

Lemma generic_of_checked :
  forallb (fun z => within_tolerance (Num 0) (generic_of (of_Z z))
                    && positive_integer (protein (generic_of (of_Z z)))
                    && positive_integer (carbs (generic_of (of_Z z)))
                    && positive_integer (fat (generic_of (of_Z z))))
          generic_calories = true.
Proof. vm_compute. reflexivity. Qed.

Lemma positive_integer_spec (x : option number) :
  positive_integer x = true -> exists z : Z, x = Some (of_Z z) /\ (1 <= z)%Z.
Proof.
  destruct x as [[[[| n |] [| |]]| |]|]; cbn [positive_integer];
    try discriminate.
  intros _. exists (Zpos n). split; [reflexivity | lia].
Qed.

(** The estimate of the no-match path is within tolerance as it is, and its
    macros are integers of at least 1. *)
Lemma generic_estimate_checked (s : jsstring) :
  within_tolerance (Num 0) (generic_estimate s) = true
  /\ positive_integer (protein (generic_estimate s)) = true
  /\ positive_integer (carbs (generic_estimate s)) = true
  /\ positive_integer (fat (generic_estimate s)) = true.
Proof.
  rewrite generic_estimate_of.
  pose proof generic_of_checked as A. rewrite forallb_forall in A.
  specialize (A _ (generic_calories_all (length (split 32 s))
                     ltac:(rewrite split_spaces; lia))).
  rewrite !andb_true_iff in A. tauto.
Qed.

Lemma parseMeal_generic (s : jsstring) :
  matchCount (accumulate (toLowerCase s)) = 0%nat ->
  parseMeal s = generic_estimate s.
Proof. intros H. unfold parseMeal. now rewrite H. Qed.

Lemma matched_nonempty (d : jsstring) :
  matchCount (accumulate d) <> 0%nat <-> matched_foods d <> [].
Proof.
  rewrite matchCount_matched_foods.
  destruct (matched_foods d); cbn [length]; split; intros H; congruence.
Qed.

(** On the match path, unless coffee alone matched, the rounded totals
    imply some calories. *)
Lemma implied_unless_only_coffee (d : jsstring) :
  matchCount (accumulate d) <> 0%nat -> only_coffee d = false ->
  implied_before (accumulate d) <> Num 0.
Proof.
  intros Hm H. apply matched_nonempty in Hm.
  destruct (not_only_coffee_matched d H Hm) as (e & He & Hne).
  now apply (implied_before_coffee d e).
Qed.

Lemma only_coffee_matchCount (d : jsstring) :
  only_coffee d = true -> matchCount (accumulate d) <> 0%nat.
Proof.
  intros H. apply matched_nonempty. rewrite (only_coffee_matched d H).
  discriminate.
Qed.

Lemma parseMeal_only_coffee (s : jsstring) :
  only_coffee (toLowerCase s) = true ->
  protein (parseMeal s) = Some NaN /\ carbs (parseMeal s) = Some NaN
  /\ fat (parseMeal s) = Some NaN.
Proof.
  intros H. rewrite (parseMeal_matched s (only_coffee_matchCount _ H)).
  destruct (accumulate_only_coffee _ H) as (m & Hm & ->).
  now apply coffee_macros_NaN.
Qed.

Lemma parseMeal_integers (s : jsstring) :
  only_coffee (toLowerCase s) = false ->
  exists p b f : Z,
    protein (parseMeal s) = Some (of_Z p)
    /\ carbs (parseMeal s) = Some (of_Z b)
    /\ fat (parseMeal s) = Some (of_Z f)
    /\ (0 <= p)%Z /\ (0 <= b)%Z /\ (0 <= f)%Z.
Proof.
  intros H.
  destruct (Nat.eq_dec (matchCount (accumulate (toLowerCase s))) 0) as [E|E].
  - rewrite (parseMeal_generic s E).
    destruct (generic_estimate_checked s) as (_ & Hp & Hb & Hf).
    apply positive_integer_spec in Hp, Hb, Hf.
    destruct Hp as (p & -> & ?), Hb as (b & -> & ?), Hf as (f & -> & ?).
    exists p, b, f. repeat split; lia.
  - rewrite (parseMeal_matched s E).
    destruct (accumulate_values (toLowerCase s))
      as (qc & qp & qb & qf & Hc & Hp & Hb & Hf & Bc & Bp & Bb & Bf).
    apply (matched_estimate_integers _ qc qp qb qf); try assumption.
    + assert (0 <= inject_Z (Z.of_nat (matchCount (accumulate (toLowerCase s)))))%Q.
      { change 0%Q with (inject_Z 0). rewrite <- Zle_Qle. lia. }
      lra.
    + now apply implied_unless_only_coffee.
Qed.

End Macros.

(** X1: the macros of an estimate are NaN exactly when coffee is the only
    food of the lexicon that the lower-cased description mentions, whatever
    the quantity; for every other description, matched or not, protein,
    carbs and fat are integers and none is negative. *)
Theorem parseMeal_macros_NaN_iff_only_coffee (s : jsstring) :
  (only_coffee (toLowerCase s) = true <-> protein (parseMeal s) = Some NaN)
  /\ (only_coffee (toLowerCase s) = true <-> carbs (parseMeal s) = Some NaN)
  /\ (only_coffee (toLowerCase s) = true <-> fat (parseMeal s) = Some NaN)
  /\ (only_coffee (toLowerCase s) = false ->
      exists p b f : Z,
        protein (parseMeal s) = Some (of_Z p)
        /\ carbs (parseMeal s) = Some (of_Z b)
        /\ fat (parseMeal s) = Some (of_Z f)
        /\ (0 <= p)%Z /\ (0 <= b)%Z /\ (0 <= f)%Z).
Proof.
  assert (back : forall field : ParsedMeal -> option number,
             (only_coffee (toLowerCase s) = false ->
              exists z : Z, field (parseMeal s) = Some (of_Z z)) ->
             field (parseMeal s) = Some NaN ->
             only_coffee (toLowerCase s) = true).
  { intros field Hint HNaN.
    destruct (only_coffee (toLowerCase s)); [reflexivity|].
    destruct (Hint eq_refl) as [z Hz]. rewrite Hz in HNaN. discriminate. }
  repeat split.
  - intros H. now apply parseMeal_only_coffee.
  - apply back. intros H.
    destruct (parseMeal_integers s H) as (p & _ & _ & Hp & _). now exists p.
  - intros H. now apply parseMeal_only_coffee.
  - apply back. intros H.
    destruct (parseMeal_integers s H) as (_ & b & _ & _ & Hb & _). now exists b.
  - intros H. now apply parseMeal_only_coffee.
  - apply back. intros H.
    destruct (parseMeal_integers s H) as (_ & _ & f & _ & _ & Hf & _).
    now exists f.
  - apply parseMeal_integers.
Qed.

Section Tolerance.

(** On the match path, rounded totals that imply some calories give an
    estimate within tolerance. *)
Lemma matched_within_tolerance (d : jsstring) :
  implied_before (accumulate d) <> Num 0 ->
  within_tolerance (Num 0) (matched_estimate (accumulate d)) = true.
Proof.
  intros Himplied.
  destruct (accumulate_values d)
    as (qc & qp & qb & qf & Hc & Hp & Hb & Hf & _).
  destruct (Qlt_le_dec qc (85 # 2)) as [L|L].
  - apply (light_spec _ _ Hc) in L. apply accumulate_light in L.
    now apply light_within_tolerance.
  - now apply (matched_estimate_heavy _ qc qp qb qf Hc Hp Hb Hf).
Qed.

Lemma NaN_out_of_tolerance (epsilon : number) (r : ParsedMeal) :
  protein r = Some NaN -> within_tolerance epsilon r = false.
Proof.
  intros H. unfold within_tolerance. rewrite H.
  destruct (calories r) as [c|]; [|reflexivity].
  destruct (carbs r) as [b|]; [|reflexivity].
  destruct (fat r) as [f|]; reflexivity.
Qed.

End Tolerance.

(** X2: whatever the description, matched or not, the macros of the
    estimate stand for calories within a fifth of its calories,
    abs((protein*4 + carbs*4 + fat*9) - calories) <= calories*0.2, unless
    coffee is the only food that the description mentions; in that case no
    tolerance epsilon, however large, makes the inequality hold. *)
Theorem parseMeal_within_tolerance_iff (s : jsstring) :
  (within_tolerance (Num 0) (parseMeal s) = true
   <-> only_coffee (toLowerCase s) = false)
  /\ (only_coffee (toLowerCase s) = true ->
      forall epsilon, within_tolerance epsilon (parseMeal s) = false).
Proof.
  assert (coffee : only_coffee (toLowerCase s) = true ->
                   forall epsilon, within_tolerance epsilon (parseMeal s) = false).
  { intros H epsilon. apply NaN_out_of_tolerance.
    now apply parseMeal_only_coffee. }
  split; [|exact coffee]. split.
  - intros H. destruct (only_coffee (toLowerCase s)); [|reflexivity].
    rewrite (coffee eq_refl) in H. discriminate.
  - intros H.
    destruct (Nat.eq_dec (matchCount (accumulate (toLowerCase s))) 0) as [E|E].
    + rewrite (parseMeal_generic s E). apply generic_estimate_checked.
    + rewrite (parseMeal_matched s E). apply matched_within_tolerance.
      now apply implied_unless_only_coffee.
Qed.

Section Confidence.

Lemma matched_estimate_confidence (t : Totals) :
  exists q, confidence (matched_estimate t) = Some (Num q)
            /\ q == confidence_of (matchCount t).
Proof.
  unfold matched_estimate.
  match goal with |- context [if ?c then _ else _] => destruct c end;
    cbn [confidence].
  all: destruct (matchCount t) as [|[|[|n]]];
    [ eexists; split; [reflexivity | vm_compute; reflexivity] ..
    | ].
  all: unfold of_nat, of_Z; cbn [mul add Math_min le].
  all: assert (B : (3 <= inject_Z (Z.of_nat (S (S (S n)))))%Q)
    by (change 3%Q with (inject_Z 3); rewrite <- Zle_Qle; lia).
  all: replace (Qle_bool 0.9
                  (Qred (0.3 + Qred (inject_Z (Z.of_nat (S (S (S n)))) * 0.2))))
    with true
    by (symmetry; apply Qle_bool_iff; rewrite !Qred_correct; lra).
  all: exists 0.9%Q; split; reflexivity.
Qed.

Lemma parseMeal_confidence_of (s : jsstring) :
  exists q, confidence (parseMeal s) = Some (Num q)
            /\ q == confidence_of (matchCount (accumulate (toLowerCase s))).
Proof.
  destruct (Nat.eq_dec (matchCount (accumulate (toLowerCase s))) 0) as [E|E].
  - rewrite (parseMeal_generic s E), E. exists 0.3%Q.
    split; reflexivity.
  - rewrite (parseMeal_matched s E). apply matched_estimate_confidence.
Qed.

Lemma confidence_of_range (n : nat) :
  (3 # 10 <= confidence_of n)%Q /\ (confidence_of n <= 9 # 10)%Q.
Proof. destruct n as [|[|[|n]]]; cbn [confidence_of]; split; lra. Qed.

Lemma confidence_of_mono (n m : nat) :
  (n <= m)%nat -> (confidence_of n <= confidence_of m)%Q.
Proof.
  intros H. destruct n as [|[|[|n]]], m as [|[|[|m]]];
    cbn [confidence_of]; try lra; lia.
Qed.

Lemma confidence_of_match (n : nat) :
  (1 # 2 <= confidence_of n)%Q <-> (1 <= n)%nat.
Proof.
  destruct n as [|[|[|n]]]; cbn [confidence_of]; split; intros H;
    try lra; try lia.
Qed.

Lemma filter_length_mono {A} (f g : A -> bool) (l : list A) :
  (forall x, In x l -> f x = true -> g x = true) ->
  (length (filter f l) <= length (filter g l))%nat.
Proof.
  induction l as [|x l IH]; intros H; cbn [filter]; [lia|].
  assert (IH' : (length (filter f l) <= length (filter g l))%nat).
  { apply IH. intros y Hy. apply H. now right. }
  destruct (f x) eqn:F.
  - rewrite (H x (or_introl eq_refl) F). cbn [length]. lia.
  - destruct (g x); cbn [length]; lia.
Qed.

Lemma matched_foods_length (d : jsstring) :
  (length (matched_foods d) <= 29)%nat.
Proof.
  unfold matched_foods. rewrite entries_of_mockFoodDatabase.
  etransitivity; [apply filter_length_le|]. reflexivity.
Qed.

Lemma matched_foods_substring (d : jsstring) (e : jsstring * ParsedMeal) :
  In e (matched_foods d)
  <-> In e (Object_entries mockFoodDatabase) /\ substring (fst e) d.
Proof. rewrite matched_foods_In, includes_spec. reflexivity. Qed.

Lemma substring_app (sub a s b : jsstring) :
  substring sub s -> substring sub (a ++ s ++ b).
Proof.
  intros (before & rest & ->). exists (a ++ before), (rest ++ b).
  now rewrite <- !app_assoc.
Qed.

Lemma matched_foods_more (a d b : jsstring) (e : jsstring * ParsedMeal) :
  In e (matched_foods d) -> In e (matched_foods (a ++ d ++ b)).
Proof.
  rewrite !matched_foods_substring. intros [He Hs].
  split; [exact He | now apply substring_app].
Qed.

Lemma matched_foods_more_length (a d b : jsstring) :
  (length (matched_foods d) <= length (matched_foods (a ++ d ++ b)))%nat.
Proof.
  unfold matched_foods. apply filter_length_mono.
  intros e _. rewrite !includes_spec. apply substring_app.
Qed.

End Confidence.

(** X3: the confidence of an estimate is 0.3 when no food matched, and 0.5,
    0.7 and 0.9 after one, two and three or more matches: it lies between
    0.3 and 0.9, and is at least 0.5 exactly when some food of the lexicon
    occurs in the lower-cased description.  At most 29 foods match.
    Computed in binary64 as the source does, the three values after a match
    are the binary64 numbers 0.5, 0.7 and 0.9. *)
Theorem parseMeal_confidence (s : jsstring) :
  let n := matchCount (accumulate (toLowerCase s)) in
  (exists q, confidence (parseMeal s) = Some (Num q)
             /\ q == confidence_of n
             /\ (3 # 10 <= q)%Q /\ (q <= 9 # 10)%Q
             /\ ((1 # 2 <= q)%Q
                 <-> exists e, In e (Object_entries mockFoodDatabase)
                               /\ substring (fst e) (toLowerCase s)))
  /\ n = length (matched_foods (toLowerCase s))
  /\ (n <= 29)%nat
  /\ Confidence64.confidence 1 = Confidence64.one_match
  /\ Confidence64.confidence 2 = Confidence64.two_matches
  /\ Forall (fun k => Confidence64.confidence (Z.of_nat k)
                      = Confidence64.more_matches) (seq 3 27).
Proof.
  intros n. subst n.
  destruct (parseMeal_confidence_of s) as (q & Hq & E).
  pose proof (confidence_of_range (matchCount (accumulate (toLowerCase s))))
    as [Lo Hi].
  pose proof (confidence_of_match (matchCount (accumulate (toLowerCase s))))
    as M.
  rewrite <- E in Lo, Hi, M.
  split; [|split; [|split; [|split; [|split]]]].
  - exists q. repeat split; try assumption.
    + intros H. apply M in H. rewrite matchCount_matched_foods in H.
      destruct (matched_foods (toLowerCase s)) as [|e l] eqn:F;
        [cbn [length] in H; lia|].
      exists e. apply (proj1 (matched_foods_substring (toLowerCase s) e)).
      rewrite F. now left.
    + intros (e & He & Hs). apply M. rewrite matchCount_matched_foods.
      assert (Hin : In e (matched_foods (toLowerCase s)))
        by (apply (proj2 (matched_foods_substring (toLowerCase s) e));
            now split).
      destruct (matched_foods (toLowerCase s)); [destruct Hin|].
      cbn [length]. lia.
  - apply matchCount_matched_foods.
  - rewrite matchCount_matched_foods. apply matched_foods_length.
  - vm_compute. reflexivity.
  - vm_compute. reflexivity.
  - vm_compute. repeat constructor.
Qed.

(** X4: text added before or after a description never loses a match:
    every food matched in the description is matched in the longer one, so
    the number of matches and the confidence do not decrease, and an
    estimate taken from the lexicon never falls back to the generic one. *)
Theorem parseMeal_more_text (a s b : jsstring) :
  (forall e, In e (matched_foods (toLowerCase s)) ->
             In e (matched_foods (toLowerCase (a ++ s ++ b))))
  /\ (matchCount (accumulate (toLowerCase s))
      <= matchCount (accumulate (toLowerCase (a ++ s ++ b))))%nat
  /\ (exists q q',
         confidence (parseMeal s) = Some (Num q)
         /\ confidence (parseMeal (a ++ s ++ b)) = Some (Num q')
         /\ (q <= q')%Q)
  /\ (matchCount (accumulate (toLowerCase s)) <> 0%nat ->
      matchCount (accumulate (toLowerCase (a ++ s ++ b))) <> 0%nat
      /\ parseMeal (a ++ s ++ b)
         = matched_estimate (accumulate (toLowerCase (a ++ s ++ b)))).
Proof.
  rewrite !toLowerCase_app.
  assert (L : (matchCount (accumulate (toLowerCase s))
               <= matchCount
                    (accumulate
                       (toLowerCase a ++ toLowerCase s ++ toLowerCase b)))%nat).
  { rewrite !matchCount_matched_foods. apply matched_foods_more_length. }
  split; [|split; [|split]].
  - intros e. apply matched_foods_more.
  - exact L.
  - destruct (parseMeal_confidence_of s) as (q & Hq & E).
    destruct (parseMeal_confidence_of (a ++ s ++ b)) as (q' & Hq' & E').
    rewrite !toLowerCase_app in E'.
    exists q, q'. split; [exact Hq|]. split; [exact Hq'|].
    rewrite E, E'. now apply confidence_of_mono.
  - intros H.
    assert (H' : matchCount
                   (accumulate
                      (toLowerCase a ++ toLowerCase s ++ toLowerCase b))
                 <> 0%nat) by lia.
    split; [exact H'|].
    rewrite <- !toLowerCase_app. apply parseMeal_matched.
    now rewrite !toLowerCase_app.
Qed.

Section SingleFood.

Lemma single_food_scaled (e : jsstring * ParsedMeal) (k : Z) :
  In e (Object_entries mockFoodDatabase) ->
  fst e <> js "coffee" -> fst e <> js "broccoli" ->
  In k [1; 2; 3; 4]%Z ->
  matched_estimate (add_with noTotals (snd e) (of_Z k)) = scaled k (snd e).
Proof.
  rewrite entries_of_mockFoodDatabase. unfold mockFoodDatabase.
  intros He Hc Hb Hk. cbn [In] in Hk.
  destruct Hk as [<-|[<-|[<-|[<-|[]]]]];
    repeat (destruct He as [<-|He];
            [first [ exfalso; apply Hc; reflexivity
                   | exfalso; apply Hb; reflexivity
                   | vm_compute; reflexivity ] | ]);
    destruct He.
Qed.

Lemma integer_multiplier (k : Z) :
  In (of_Z k) multiplier_values -> In k [1; 2; 3; 4]%Z.
Proof.
  unfold multiplier_values, of_Z, inject_Z. cbn [In].
  intros [E|[E|[E|[E|[E|[E|[E|[]]]]]]]]; inversion E; subst; cbn [In];
    tauto.
Qed.

End SingleFood.

(** X20: a description in which one food of the lexicon occurs, coffee and
    broccoli apart, with no quantity next to it or with one that stands
    for a whole number (two, three, four, double and the numerals), is
    estimated at exactly the entry of that food times the number, with
    confidence 0.5: the macros of every such entry are within tolerance of
    its calories, so nothing is rescaled.  The entry of broccoli is not: its
    4 g of protein, 11 g of carbs and 1 g of fat stand for 69 calories
    against 55, and a description that mentions broccoli alone is given 3 g
    of protein and 9 g of carbs. *)
Theorem parseMeal_single_food (s : jsstring) (e : jsstring * ParsedMeal)
        (k : Z) :
  matched_foods (toLowerCase s) = [e] ->
  find_multiplier (toLowerCase s) (fst e) = of_Z k ->
  fst e <> js "coffee" -> fst e <> js "broccoli" ->
  parseMeal s = scaled k (snd e)
  /\ In e (Object_entries mockFoodDatabase)
  /\ In k [1; 2; 3; 4]%Z
  /\ confidence (parseMeal s) = Some (Num (1 # 2))
  /\ parseMeal (js "broccoli")
     = {| calories := Some (Num 55); protein := Some (Num 3);
          carbs := Some (Num 9); fat := Some (Num 1);
          confidence := Some (Num (1 # 2)) |}.
Proof.
  intros M Hk Hc Hb.
  assert (He : In e (Object_entries mockFoodDatabase)).
  { assert (Hin : In e (matched_foods (toLowerCase s)))
      by (rewrite M; now left).
    now apply matched_foods_In in Hin. }
  assert (K : In k [1; 2; 3; 4]%Z).
  { apply integer_multiplier. rewrite <- Hk. apply find_multiplier_value. }
  assert (E : parseMeal s = scaled k (snd e)).
  { rewrite parseMeal_matched
      by (apply matched_nonempty; rewrite M; discriminate).
    rewrite accumulate_matched, M. cbn [fold_left].
    rewrite add_food_add_with, Hk. now apply single_food_scaled. }
  split; [exact E|]. split; [exact He|]. split; [exact K|].
  split; [rewrite E; reflexivity | vm_compute; reflexivity].
Qed.

Lemma parseMeal_single_food_witness :
  parseMeal (js "Two bananas, please")
  = {| calories := Some (Num 210); protein := Some (Num 2);
       carbs := Some (Num 54); fat := Some (Num 0);
       confidence := Some (Num (1 # 2)) |}.
Proof.
  assert (M : matched_foods (toLowerCase (js "Two bananas, please"))
              = [(js "banana", food_entry 105 1 27 0)])
    by (vm_compute; reflexivity).
  assert (K : find_multiplier (toLowerCase (js "Two bananas, please"))
                              (js "banana") = of_Z 2)
    by (vm_compute; reflexivity).
  destruct (parseMeal_single_food
              (js "Two bananas, please")
              (js "banana", food_entry 105 1 27 0) 2 M K
              ltac:(discriminate) ltac:(discriminate)) as [E _].
  rewrite E. vm_compute. reflexivity.
Defined.

Section Display.

Variable toString : number -> jsstring.

Lemma truthy_part_of_Z (z : Z) (suffix : jsstring) :
  truthy_part toString (Some (of_Z z)) suffix = gram_part toString z suffix.
Proof.
  unfold truthy_part, gram_part, truthy_opt, truthy, of_Z, is_zero, template.
  unfold inject_Z. cbn [Qnum]. now destruct (z =? 0)%Z.
Qed.

Lemma truthy_part_NaN (suffix : jsstring) :
  truthy_part toString (Some NaN) suffix = gram_part toString 0 suffix.
Proof. reflexivity. Qed.

Lemma truthy_of_positive (c : Z) :
  (1 <= c)%Z -> truthy_opt (Some (of_Z c)) = true.
Proof.
  intros H. unfold truthy_opt, truthy, of_Z, is_zero, inject_Z. cbn [Qnum].
  apply negb_true_iff, Z.eqb_neq. lia.
Qed.

End Display.

(** X5: what the formatter shows of an estimate of [parseMeal]: the
    calories, an integer of at least 1, then one part for each macro that
    is an integer of at least 1 gram, in the order protein, carbs, fat.  A
    macro of 0 grams and the NaN macros of a coffee-only description are
    left out, so "NaN" and "0g" are never shown; a description that
    mentions coffee alone is shown with its calories only. *)
Theorem formatParsedMeal_parseMeal_parts
        (toString : number -> jsstring) (s : jsstring) :
  (exists c p b f : Z,
      (1 <= c)%Z /\ (0 <= p)%Z /\ (0 <= b)%Z /\ (0 <= f)%Z
      /\ calories (parseMeal s) = Some (of_Z c)
      /\ (if only_coffee (toLowerCase s)
          then p = 0%Z /\ b = 0%Z /\ f = 0%Z
          else protein (parseMeal s) = Some (of_Z p)
               /\ carbs (parseMeal s) = Some (of_Z b)
               /\ fat (parseMeal s) = Some (of_Z f))
      /\ formatParsedMeal toString (parseMeal s)
         = join delimiter
             ([toString (of_Z c) ++ js " cal"]
                ++ gram_part toString p (js "g protein")
                ++ gram_part toString b (js "g carbs")
                ++ gram_part toString f (js "g fat")))
  /\ formatParsedMeal Number_toString (parseMeal (js "black coffee"))
     = js "2 cal".
Proof.
  split; [|vm_compute; reflexivity].
  destruct (parseMeal_calories s) as (c & Hc & H1 & _).
  assert (T : truthy_opt (calories (parseMeal s)) = true)
    by (rewrite Hc; now apply truthy_of_positive).
  rewrite (formatParsedMeal_parts toString _ T), Hc. cbn [template].
  destruct (only_coffee (toLowerCase s)) eqn:O.
  - destruct (parseMeal_only_coffee s O) as (-> & -> & ->).
    exists c, 0%Z, 0%Z, 0%Z. repeat split; try lia.
  - destruct (parseMeal_integers s O) as (p & b & f & -> & -> & -> & ? & ? & ?).
    exists c, p, b, f. rewrite !truthy_part_of_Z. repeat split; assumption.
Qed.

(* ================================================================== *)
(** * Further properties of the aggregator *)
(* ================================================================== *)

Section Sums.

Lemma integral_spec (x : option number) :
  integral x = true -> or0 x = of_Z (amount x).
Proof.
  unfold integral, amount. destruct (or0 x) as [[n [d|d|]]| |];
    try discriminate.
  intros _. unfold of_Z, inject_Z, Qfloor. now rewrite Z.div_1_r.
Qed.

Lemma fold_step_integral (l : list (option number)) (a : Z) :
  Forall (fun x => integral x = true) l ->
  fold_left step l (of_Z a) = of_Z (a + sum_Z (map amount l)).
Proof.
  intros H. revert a. induction H as [|x l Hx Hl IH]; intros a;
    cbn [fold_left map sum_Z fold_right].
  - now rewrite Z.add_0_r.
  - unfold step at 2. rewrite or0_of_Z, (integral_spec x Hx), add_of_Z.
    rewrite IH. f_equal. fold (sum_Z (map amount l)). lia.
Qed.

Lemma total_integral (field : ParsedMeal -> option number)
      (meals : list ParsedMeal) :
  Forall (fun m => integral (field m) = true) meals ->
  total field meals = of_Z (column_sum field meals).
Proof.
  intros H. unfold total, column_sum.
  change (Num 0) with (of_Z 0).
  rewrite fold_step_integral by (apply Forall_map; exact H).
  now rewrite map_map.
Qed.

Lemma integral_meal_fields (meals : list ParsedMeal) :
  forallb integral_meal meals = true ->
  Forall (fun m => integral (calories m) = true) meals
  /\ Forall (fun m => integral (protein m) = true) meals
  /\ Forall (fun m => integral (carbs m) = true) meals
  /\ Forall (fun m => integral (fat m) = true) meals.
Proof.
  rewrite forallb_forall. intros H.
  repeat split; apply Forall_forall; intros m Hm;
    specialize (H m Hm); unfold integral_meal in H;
    rewrite !andb_true_iff in H; tauto.
Qed.

Lemma calculateTotals_integral (meals : list ParsedMeal) :
  forallb integral_meal meals = true ->
  calculateTotals meals
  = estimate (Some (of_Z (column_sum calories meals)))
             (Some (of_Z (column_sum protein meals)))
             (Some (of_Z (column_sum carbs meals)))
             (Some (of_Z (column_sum fat meals))).
Proof.
  intros H. destruct (integral_meal_fields meals H) as (C & P & B & F).
  rewrite Aggregator.calculateTotals_total.
  now rewrite !total_integral.
Qed.

Lemma integral_of_Z (z : Z) : integral (Some (of_Z z)) = true.
Proof.
  unfold integral. rewrite or0_of_Z. reflexivity.
Qed.

Lemma amount_of_Z (z : Z) : amount (Some (of_Z z)) = z.
Proof.
  unfold amount. rewrite or0_of_Z. unfold of_Z, inject_Z, Qfloor.
  apply Z.div_1_r.
Qed.

(** The fields of an estimate of [parseMeal] count for integers: at least 1
    for the calories, and none negative for the macros. *)
Lemma parseMeal_integral (s : jsstring) :
  integral_meal (parseMeal s) = true
  /\ (1 <= amount (calories (parseMeal s)))%Z
  /\ (0 <= amount (protein (parseMeal s)))%Z
  /\ (0 <= amount (carbs (parseMeal s)))%Z
  /\ (0 <= amount (fat (parseMeal s)))%Z.
Proof.
  destruct (parseMeal_calories s) as (c & Hc & H1 & _).
  unfold integral_meal. rewrite Hc, integral_of_Z, amount_of_Z.
  destruct (only_coffee (toLowerCase s)) eqn:O.
  - destruct (parseMeal_only_coffee s O) as (-> & -> & ->).
    change (amount (Some NaN)) with 0%Z.
    change (integral (Some NaN)) with true.
    repeat split; lia.
  - destruct (parseMeal_integers s O) as (p & b & f & -> & -> & -> & ? & ? & ?).
    rewrite !integral_of_Z, !amount_of_Z. repeat split; assumption.
Qed.

Lemma sum_Z_lower (lo : Z) (l : list Z) :
  Forall (fun z => (lo <= z)%Z) l ->
  (lo * Z.of_nat (length l) <= sum_Z l)%Z.
Proof.
  induction 1 as [|z l Hz Hl IH]; cbn [sum_Z fold_right length]; [lia|].
  fold (sum_Z l). lia.
Qed.

End Sums.



(** X7: the totals of the estimates of any descriptions are integers: the
    calories are the sum of the calories of the estimates, at least 1 for
    each description, and each macro is the sum of the macros of the
    estimates, where the NaN macros of a coffee-only description count for
    0; no total is NaN, and none is negative. *)
Theorem calculateTotals_of_estimates (descriptions : list jsstring) :
  let meals := map parseMeal descriptions in
  calculateTotals meals
  = estimate (Some (of_Z (column_sum calories meals)))
             (Some (of_Z (column_sum protein meals)))
             (Some (of_Z (column_sum carbs meals)))
             (Some (of_Z (column_sum fat meals)))
  /\ (Z.of_nat (length descriptions) <= column_sum calories meals)%Z
  /\ (0 <= column_sum protein meals)%Z
  /\ (0 <= column_sum carbs meals)%Z
  /\ (0 <= column_sum fat meals)%Z
  /\ calculateTotals [parseMeal (js "coffee"); parseMeal (js "chicken and rice")]
     = estimate (Some (Num 372)) (Some (Num 35)) (Some (Num 45))
                (Some (Num 4)).
Proof.
  intros meals.
  assert (bound : forall (field : ParsedMeal -> option number) (lo : Z),
             (forall s, (lo <= amount (field (parseMeal s)))%Z) ->
             (lo * Z.of_nat (length descriptions) <= column_sum field meals)%Z).
  { intros field lo H. unfold column_sum, meals.
    rewrite map_map, <- (length_map (fun d => amount (field (parseMeal d)))).
    apply sum_Z_lower. apply Forall_map, Forall_forall. intros d _. apply H. }
  split; [|split; [|split; [|split; [|split]]]].
  - apply calculateTotals_integral. unfold meals.
    rewrite forallb_forall. intros m Hm. apply in_map_iff in Hm.
    destruct Hm as (d & <- & _). apply parseMeal_integral.
  - pose proof (bound calories 1%Z (fun s => proj1 (proj2 (parseMeal_integral s)))).
    lia.
  - pose proof (bound protein 0%Z
                  (fun s => proj1 (proj2 (proj2 (parseMeal_integral s))))).
    lia.
  - pose proof (bound carbs 0%Z
                  (fun s => proj1 (proj2 (proj2 (proj2 (parseMeal_integral s)))))).
    lia.
  - pose proof (bound fat 0%Z
                  (fun s => proj2 (proj2 (proj2 (proj2 (parseMeal_integral s)))))).
    lia.
  - vm_compute. reflexivity.
Qed.

(* ================================================================== *)
(** * The totals of the day *)
(* ================================================================== *)

Section DailyTotals.










End DailyTotals.

Section StoredRows.



End StoredRows.




(* ================================================================== *)
(** * The helpers of [src/types/meals.ts] *)
(* ================================================================== *)

Section Percentages.




Lemma strict_eq_of_Z (a b : Z) : strict_eq (of_Z a) (of_Z b) = (a =? b)%Z.
Proof.
  unfold strict_eq, of_Z, Qeq_bool, inject_Z. cbn [Qnum Qden].
  now rewrite !Z.mul_1_r.
Qed.


End Percentages.



Section MealDate.

Lemma lt_of_Z (a b : Z) : lt (of_Z a) (of_Z b) = (a <? b)%Z.
Proof.
  unfold lt, gt, of_Z, Qle_bool, inject_Z. cbn [Qnum Qden].
  rewrite !Z.mul_1_r. symmetry. apply Z.ltb_antisym.
Qed.

Lemma gt_of_Z (a b : Z) : (of_Z a > of_Z b) = (b <? a)%Z.
Proof. apply (lt_of_Z b a). Qed.

(** The quotient of two integers, rounded down. *)
Lemma floor_div_of_Z (a k : Z) :
  (0 < k)%Z -> Math_floor (of_Z a / of_Z k) = of_Z (a / k).
Proof.
  intros Hk. unfold of_Z at 1 2. cbn [div].
  replace (is_zero (inject_Z k)) with false
    by (symmetry; apply Z.eqb_neq; unfold inject_Z; cbn [Qnum]; lia).
  cbn [Math_floor]. f_equal.
  rewrite (Qfloor_comp _ (inject_Z a / inject_Z k)) by apply Qred_correct.
  destruct k as [|k|k]; try lia.
  unfold Qdiv, Qinv, Qmult, inject_Z, Qfloor. cbn [Qnum Qden].
  now rewrite Z.mul_1_r, Pos.mul_1_l.
Qed.

Lemma hour_ms : Num 1000 * Num 60 * Num 60 = of_Z 3600000.
Proof. vm_compute. reflexivity. Qed.

Lemma minute_ms : Num 1000 * Num 60 = of_Z 60000.
Proof. vm_compute. reflexivity. Qed.

End MealDate.

(** X11: what [formatMealDate] shows, by the milliseconds elapsed between
    the date and the clock, both valid: "Just now" below a minute, and for
    any date in the future; the whole minutes, 1 to 59, below an hour; the
    whole hours, 1 to 23, below a day; "Yesterday" from 24 hours to below 48
    hours, whatever the calendar day; the whole days, 2 to 6, below a week;
    the date as the locale prints it from a week on.  "s" is added from 2
    units on.  A string that is no date is printed as the locale prints
    it. *)
Theorem formatMealDate_elapsed
        (getTime : jsstring -> number)
        (toLocaleDateString : jsstring -> jsstring)
        (toString : number -> jsstring)
        (clock time : Z) (dateString : jsstring) :
  getTime dateString = of_Z time ->
  let elapsed := (clock - time)%Z in
  Meals.formatMealDate (of_Z clock) getTime toLocaleDateString toString
                       dateString
  = (if (elapsed <? 60000)%Z then js "Just now"
     else if (elapsed <? 3600000)%Z then
       toString (of_Z (elapsed / 60000)) ++ js " minute"
         ++ (if (1 <? elapsed / 60000)%Z then js "s" else []) ++ js " ago"
     else if (elapsed <? 86400000)%Z then
       toString (of_Z (elapsed / 3600000)) ++ js " hour"
         ++ (if (1 <? elapsed / 3600000)%Z then js "s" else [])
         ++ js " ago"
     else if (elapsed <? 172800000)%Z then js "Yesterday"
     else if (elapsed <? 604800000)%Z then
       toString (of_Z (elapsed / 86400000)) ++ js " days ago"
     else toLocaleDateString dateString)
  /\ ((60000 <= elapsed < 3600000)%Z -> (1 <= elapsed / 60000 <= 59)%Z)
  /\ ((3600000 <= elapsed < 86400000)%Z -> (1 <= elapsed / 3600000 <= 23)%Z)
  /\ ((172800000 <= elapsed < 604800000)%Z -> (2 <= elapsed / 86400000 <= 6)%Z)
  /\ (forall now other,
         getTime other = NaN ->
         Meals.formatMealDate now getTime toLocaleDateString toString other
         = toLocaleDateString other).
Proof.
  intros H elapsed.
  split; [|split; [|split; [|split]]].
  - unfold Meals.formatMealDate. rewrite H, sub_of_Z. fold elapsed.
    rewrite hour_ms, minute_ms.
    rewrite !floor_div_of_Z by lia.
    change (Num 1) with (of_Z 1). change (Num 24) with (of_Z 24).
    change (Num 7) with (of_Z 7).
    rewrite !floor_div_of_Z by lia.
    rewrite !lt_of_Z, !gt_of_Z, strict_eq_of_Z.
    rewrite Z.div_div by lia. change (3600000 * 24)%Z with 86400000%Z.
    pose proof (Z.div_mod elapsed 60000 ltac:(lia)) as Qm.
    pose proof (Z.mod_pos_bound elapsed 60000 ltac:(lia)) as Rm.
    pose proof (Z.div_mod elapsed 3600000 ltac:(lia)) as Qh.
    pose proof (Z.mod_pos_bound elapsed 3600000 ltac:(lia)) as Rh.
    pose proof (Z.div_mod elapsed 86400000 ltac:(lia)) as Qd.
    pose proof (Z.mod_pos_bound elapsed 86400000 ltac:(lia)) as Rd.
    set (m := (elapsed / 60000)%Z) in *.
    set (h := (elapsed / 3600000)%Z) in *.
    set (d := (elapsed / 86400000)%Z) in *.
    repeat (match goal with
            | |- context [Z.ltb ?a ?b] => destruct (Z.ltb_spec a b)
            | |- context [Z.eqb ?a ?b] => destruct (Z.eqb_spec a b)
            end; try (exfalso; lia)); reflexivity.
  - intros [A B].
    pose proof (Z.div_le_lower_bound elapsed 60000 1 ltac:(lia) ltac:(lia)).
    pose proof (Z.div_lt_upper_bound elapsed 60000 60 ltac:(lia) ltac:(lia)).
    lia.
  - intros [A B].
    pose proof (Z.div_le_lower_bound elapsed 3600000 1 ltac:(lia) ltac:(lia)).
    pose proof (Z.div_lt_upper_bound elapsed 3600000 24 ltac:(lia) ltac:(lia)).
    lia.
  - intros [A B].
    pose proof (Z.div_le_lower_bound elapsed 86400000 2 ltac:(lia) ltac:(lia)).
    pose proof (Z.div_lt_upper_bound elapsed 86400000 7 ltac:(lia) ltac:(lia)).
    lia.
  - intros now other N. unfold Meals.formatMealDate. rewrite N.
    destruct now; reflexivity.
Qed.

Lemma formatMealDate_elapsed_witness :
  Meals.formatMealDate (of_Z 7200000) (fun _ => of_Z 0) (fun s => s)
                       Number_toString (js "1970-01-01T00:00:00Z")
  = js "2 hours ago".
Proof.
  apply (formatMealDate_elapsed (fun _ => of_Z 0) (fun s => s)
                                Number_toString 7200000 0
                                (js "1970-01-01T00:00:00Z")).
  reflexivity.
Defined.

(* ================================================================== *)
(** * The form of the diet page *)
(* ================================================================== *)

Section Trim.

Lemma trimStart_blank (s : jsstring) :
  trimStart s = [] <-> forallb is_space s = true.
Proof.
  induction s as [|c s IH]; cbn [trimStart forallb]; [tauto|].
  destruct (is_space c); cbn [andb]; [exact IH|].
  split; discriminate.
Qed.

Lemma forallb_rev {A} (f : A -> bool) (l : list A) :
  forallb f (rev l) = forallb f l.
Proof.
  induction l as [|x l IH]; cbn [rev forallb]; [reflexivity|].
  rewrite forallb_app, IH. cbn [forallb]. rewrite andb_true_r.
  apply andb_comm.
Qed.

Lemma trimStart_head (s : jsstring) (c : N) (rest : jsstring) :
  trimStart s = c :: rest -> is_space c = false.
Proof.
  induction s as [|x s IH]; cbn [trimStart]; [discriminate|].
  destruct (is_space x) eqn:E; [exact IH|].
  intros H. injection H as <- _. exact E.
Qed.

(** A string trims to the empty string exactly when it is white space
    throughout. *)
Lemma trim_blank (s : jsstring) :
  truthy_string (trim s) = false <-> forallb is_space s = true.
Proof.
  assert (E : forall l : jsstring, truthy_string l = false <-> l = [])
    by (intros [|x l]; cbn [truthy_string]; split; congruence).
  rewrite E. unfold trim, trimEnd. split.
  - intros H. apply (f_equal (@rev N)) in H. rewrite rev_involutive in H.
    cbn [rev] in H. apply trimStart_blank in H. rewrite forallb_rev in H.
    destruct (trimStart s) as [|c rest] eqn:T.
    + now apply trimStart_blank.
    + apply trimStart_head in T. cbn [forallb] in H. rewrite T in H.
      discriminate H.
  - intros H. apply trimStart_blank in H. now rewrite H.
Qed.

End Trim.

(** X12: the form of the diet page refuses a description exactly when it is
    empty or white space throughout: then nothing is sent to the database
    layer, the page shows 'Please enter a meal description' and nothing
    else of its state changes.  Any other description is estimated and
    saved: the handler calls [createMeal]. *)
Theorem handleSubmit_blank (saved : settled unit)
        (meals : settled (list Meals.Meal)) (st : DietPage.State) :
  (snd (DietPage.handleSubmit saved meals st) = []
   <-> forallb is_space (DietPage.mealText st) = true)
  /\ (forallb is_space (DietPage.mealText st) = true ->
      fst (DietPage.handleSubmit saved meals st)
      = DietPage.setError (Some (js "Please enter a meal description")) st)
  /\ (forallb is_space (DietPage.mealText st) = false ->
      exists meal rest,
        snd (DietPage.handleSubmit saved meals st)
        = DietPage.createMeal meal :: rest).
Proof.
  unfold DietPage.handleSubmit.
  destruct (truthy_string (trim (DietPage.mealText st))) eqn:T; cbn [negb].
  - assert (B : forallb is_space (DietPage.mealText st) = false).
    { destruct (forallb is_space (DietPage.mealText st)) eqn:B;
        [|reflexivity].
      apply trim_blank in B. congruence. }
    rewrite B. split; [|split].
    + destruct saved; cbn [snd]; split; discriminate.
    + discriminate.
    + intros _. destruct saved; cbn [snd]; eauto.
  - apply trim_blank in T. rewrite T. cbn [fst snd]. split; [|split].
    + tauto.
    + reflexivity.
    + discriminate.
Qed.

(** X13: what the form of the diet page saves and leaves, for a
    description that is not blank.  The meal handed to [createMeal] holds
    the description as typed, neither trimmed nor lower-cased, with the
    four fields of its estimate, the calories an integer of at least 1.
    When the save succeeds the input is cleared and the meals of the day
    are asked for again; a failure of that reload is reported as such and
    keeps the list shown.  When the save fails the description stays in the
    input with 'Failed to save meal. Please try again.', and no reload is
    made.  In every case the form is enabled again at the end. *)
Theorem handleSubmit_saves (saved : settled unit)
        (meals : settled (list Meals.Meal)) (st : DietPage.State) :
  forallb is_space (DietPage.mealText st) = false ->
  let text := DietPage.mealText st in
  let st' := fst (DietPage.handleSubmit saved meals st) in
  exists (c : Z) (meal : Meals.Insert.MealInsert),
    (1 <= c)%Z
    /\ Meals.Insert.raw_text meal = text
    /\ Meals.Insert.calories meal = Some (of_Z c)
    /\ Meals.Insert.calories meal = calories (parseMeal text)
    /\ Meals.Insert.protein meal = protein (parseMeal text)
    /\ Meals.Insert.carbs meal = carbs (parseMeal text)
    /\ Meals.Insert.fat meal = fat (parseMeal text)
    /\ snd (DietPage.handleSubmit saved meals st)
       = DietPage.createMeal meal
           :: match saved with
              | Fulfilled _ => [DietPage.getTodaysMeals]
              | Rejected _ => []
              end
    /\ DietPage.submitting st' = false
    /\ DietPage.mealText st'
       = match saved with
         | Fulfilled _ => []
         | Rejected _ => text
         end
    /\ DietPage.error st'
       = match saved, meals with
         | Fulfilled _, Fulfilled _ => None
         | Fulfilled _, Rejected _ => Some (js "Failed to load today's meals")
         | Rejected _, _ => Some (js "Failed to save meal. Please try again.")
         end
    /\ DietPage.todaysMeals st'
       = match saved, meals with
         | Fulfilled _, Fulfilled rows => rows
         | _, _ => DietPage.todaysMeals st
         end.
Proof.
  intros B text st'. subst st'.
  destruct (parseMeal_calories text) as (c & Hc & H1 & _).
  exists c.
  unfold DietPage.handleSubmit.
  assert (T : truthy_string (trim (DietPage.mealText st)) = true).
  { destruct (truthy_string (trim (DietPage.mealText st))) eqn:T;
      [reflexivity|].
    apply trim_blank in T. congruence. }
  rewrite T. cbn [negb]. fold text.
  eexists. split; [exact H1|].
  destruct saved as [u|reason].
  - destruct meals as [rows|reason]; cbn; rewrite <- ?Hc;
      repeat split; reflexivity.
  - cbn. rewrite <- ?Hc. repeat split; reflexivity.
Qed.

Lemma handleSubmit_saves_witness :
  exists (c : Z) (meal : Meals.Insert.MealInsert),
    (1 <= c)%Z
    /\ Meals.Insert.raw_text meal = js "Chicken and rice"
    /\ Meals.Insert.calories meal = Some (of_Z c)
    /\ snd (DietPage.handleSubmit
              (Fulfilled tt) (Fulfilled [])
              {| DietPage.mealText := js "Chicken and rice";
                 DietPage.todaysMeals := []; DietPage.loading := false;
                 DietPage.submitting := false; DietPage.error := None |})
       = [DietPage.createMeal meal; DietPage.getTodaysMeals].
Proof.
  destruct (handleSubmit_saves
              (Fulfilled tt) (Fulfilled [])
              {| DietPage.mealText := js "Chicken and rice";
                 DietPage.todaysMeals := []; DietPage.loading := false;
                 DietPage.submitting := false; DietPage.error := None |}
              eq_refl)
    as (c & meal & H1 & Ht & Hc & _ & _ & _ & _ & E & _).
  exists c, meal. repeat split; assumption.
Defined.

(* ================================================================== *)
(** * The recommendation of a workout *)
(* ================================================================== *)

Section Recommendation.





End Recommendation.



(* ================================================================== *)
(** * The duration of a trip *)
(* ================================================================== *)

Section Duration.







End Duration.



(* ================================================================== *)
(** * The form of the travel page *)
(* ================================================================== *)

Section TravelForm.

Variable getTime : jsstring -> number.

Lemma required_filled_spec (form : TravelPage.FormData) :
  negb (truthy_string (TravelPage.destination form))
  || negb (truthy_string (TravelPage.country form))
  || negb (truthy_string (TravelPage.city form))
  || negb (truthy_string (TravelPage.start_date form))
  || negb (truthy_string (TravelPage.end_date form))
  = negb (required_filled form).
Proof.
  unfold required_filled.
  destruct (truthy_string (TravelPage.destination form)),
    (truthy_string (TravelPage.country form)),
    (truthy_string (TravelPage.city form)),
    (truthy_string (TravelPage.start_date form)),
    (truthy_string (TravelPage.end_date form)); reflexivity.
Qed.



Lemma lt_NaN (x y : number) : x = NaN \/ y = NaN -> lt x y = false.
Proof. intros [-> | ->]; [destruct y | destruct x]; reflexivity. Qed.

End TravelForm.

(** X16: the form of a trip is refused, with nothing sent to the database
    layer and only the error of the page changed, in two cases: one of
    destination, country, city, start date and end date is empty ('Please
    fill in all required fields'), or all are filled in and the end date is
    before the start date ('End date must be after start date').  An end
    date equal to the start date is accepted, and so is any pair of dates
    of which one is no date, since every comparison with NaN is false. *)
Theorem travel_handleSubmit_refuses (getTime : jsstring -> number)
        (saved : settled Trips.Trip) (upcoming : settled (list Trips.Trip))
        (st : TravelPage.State) :
  let form := TravelPage.formData st in
  let before :=
    lt (getTime (TravelPage.end_date form))
       (getTime (TravelPage.start_date form)) in
  let result := TravelPage.handleSubmit getTime saved upcoming st in
  (snd result = [] <-> required_filled form = false \/ before = true)
  /\ (required_filled form = false ->
      result
      = (TravelPage.setError
           (Some (js "Please fill in all required fields")) st, []))
  /\ (required_filled form = true -> before = true ->
      result
      = (TravelPage.setError
           (Some (js "End date must be after start date")) st, []))
  /\ (required_filled form = true ->
      getTime (TravelPage.end_date form)
      = getTime (TravelPage.start_date form)
      \/ getTime (TravelPage.end_date form) = NaN
      \/ getTime (TravelPage.start_date form) = NaN ->
      exists input rest, snd result = TravelPage.createTrip input :: rest).
Proof.
  intros form before result. subst result.
  unfold TravelPage.handleSubmit. fold form.
  rewrite required_filled_spec. fold before.
  destruct (required_filled form) eqn:R; cbn [negb].
  - destruct before eqn:B.
    + cbn [snd]. repeat split; try tauto; try discriminate.
      intros _ [E|[E|E]]; exfalso.
      * unfold before in B. rewrite E in B. unfold lt in B.
        destruct (getTime (TravelPage.start_date form)) as [q| |];
          cbn [gt] in B; try discriminate.
        -- apply negb_true_iff in B.
           assert (Qle_bool q q = true) by (apply Qle_bool_iff; lra).
           congruence.
        -- destruct negative; discriminate.
      * unfold before in B. rewrite (lt_NaN _ _ (or_introl E)) in B.
        discriminate.
      * unfold before in B. rewrite (lt_NaN _ _ (or_intror E)) in B.
        discriminate.
    + split; [|split; [|split]]; try discriminate.
      * destruct saved; cbn [snd]; split;
          [discriminate | intros [?|?]; discriminate
          | discriminate | intros [?|?]; discriminate].
      * intros _ _. destruct saved; cbn [snd]; eauto.
  - cbn [snd]. repeat split; try tauto; discriminate.
Qed.



(* ================================================================== *)
(** * The hooks *)
(* ================================================================== *)

Section FetchInvariant.

Variable T : Type.

Lemma settled_coherent (o : UseFetch.outcome T) :
  coherent T (UseFetch.settled_state o).
Proof.
  destruct o as [d [e|]|m]; split; cbn;
    try (now left); try (now right); discriminate.
Qed.

Lemma step_coherent (h : UseFetch.Hook T) (e : UseFetch.event T) :
  coherent T (UseFetch.state h) ->
  coherent T (UseFetch.state (UseFetch.step h e)).
Proof.
  intros C. destruct e as [|run o| |o|]; cbn [UseFetch.step UseFetch.state].
  - split; cbn; [now right | reflexivity].
  - destruct (UseFetch.live h) as [current|]; [|exact C].
    destruct (run =? current)%nat; [apply settled_coherent | exact C].
  - split; cbn; [now right | reflexivity].
  - apply settled_coherent.
  - exact C.
Qed.

Lemma fold_coherent (events : list (UseFetch.event T)) (h : UseFetch.Hook T) :
  coherent T (UseFetch.state h) ->
  coherent T (UseFetch.state (fold_left UseFetch.step events h)).
Proof.
  revert h. induction events as [|e events IH]; intros h C; cbn [fold_left];
    [exact C|].
  apply IH. now apply step_coherent.
Qed.

Lemma run_coherent (events : list (UseFetch.event T)) :
  (UseFetch.data (UseFetch.state (UseFetch.run_events events)) = None
   \/ UseFetch.error (UseFetch.state (UseFetch.run_events events)) = None)
  /\ (UseFetch.loading (UseFetch.state (UseFetch.run_events events)) = true ->
      UseFetch.error (UseFetch.state (UseFetch.run_events events)) = None).
Proof.
  apply (fold_coherent events UseFetch.initial).
  split; cbn; [now left | reflexivity].
Qed.

Lemma fold_unmounted (events : list (UseFetch.event T)) (h : UseFetch.Hook T) :
  UseFetch.live h = None ->
  Forall (fun e => exists run o, e = UseFetch.EffectSettled run o) events ->
  fold_left UseFetch.step events h = h.
Proof.
  intros L H. induction H as [|e events (run & o & ->) _ IH];
    cbn [fold_left]; [reflexivity|].
  cbn [UseFetch.step]. rewrite L. exact IH.
Qed.

End FetchInvariant.

(** X18: whatever happens to [useFetch], in any order: the effect running
    again, a query of any run settling with rows, with an error or with an
    exception, [refetch] and its query, the unmounting: the state never
    holds an error beside data, and never holds an error while it is
    loading; the rows of the fetch before stay shown while a new one
    loads.  A query of the effect that settles after its run was cleaned
    up, by a newer run or by the unmounting, leaves the hook as it is. *)
Theorem useFetch_coherent (T : Type) (events : list (UseFetch.event T)) :
  let h := UseFetch.run_events events in
  (UseFetch.data (UseFetch.state h) = None
   \/ UseFetch.error (UseFetch.state h) = None)
  /\ (UseFetch.loading (UseFetch.state h) = true ->
      UseFetch.error (UseFetch.state h) = None)
  /\ UseFetch.data (UseFetch.state (UseFetch.step h UseFetch.Refetch))
     = UseFetch.data (UseFetch.state h)
  /\ UseFetch.data (UseFetch.state (UseFetch.step h UseFetch.Effect))
     = UseFetch.data (UseFetch.state h)
  /\ (forall run o,
         UseFetch.live h <> Some run ->
         UseFetch.step h (UseFetch.EffectSettled run o) = h)
  /\ (forall late,
         Forall (fun e => exists run o, e = UseFetch.EffectSettled run o) late ->
         fold_left UseFetch.step late (UseFetch.step h UseFetch.Unmount)
         = UseFetch.step h UseFetch.Unmount).
Proof.
  intros h. destruct (run_coherent T events) as [A B].
  split; [exact A|]. split; [exact B|].
  split; [reflexivity|]. split; [reflexivity|]. split.
  - intros run o L. cbn [UseFetch.step].
    destruct (UseFetch.live h) as [current|]; [|reflexivity].
    destruct (Nat.eqb_spec run current) as [->|]; [|reflexivity].
    contradiction.
  - intros late H. now apply fold_unmounted.
Qed.

Section AuthInvariant.

Variables User Session : Type.
Variable user_of : Session -> User.

Lemma auth_step_user (h : UseAuth.Hook User Session)
      (e : UseAuth.event Session) :
  UseAuth.user (UseAuth.authState h)
  = option_map user_of (UseAuth.session (UseAuth.authState h)) ->
  UseAuth.user (UseAuth.authState (UseAuth.step user_of h e))
  = option_map user_of
               (UseAuth.session (UseAuth.authState (UseAuth.step user_of h e))).
Proof.
  intros I. destruct e as [s| |s|]; cbn [UseAuth.step];
    destruct (UseAuth.mounted h); try exact I; reflexivity.
Qed.

Lemma auth_fold_user (events : list (UseAuth.event Session))
      (h : UseAuth.Hook User Session) :
  UseAuth.user (UseAuth.authState h)
  = option_map user_of (UseAuth.session (UseAuth.authState h)) ->
  UseAuth.user (UseAuth.authState (fold_left (UseAuth.step user_of) events h))
  = option_map user_of
      (UseAuth.session
         (UseAuth.authState (fold_left (UseAuth.step user_of) events h))).
Proof.
  revert h. induction events as [|e events IH]; intros h I; cbn [fold_left];
    [exact I|].
  apply IH. now apply auth_step_user.
Qed.

Lemma auth_fold_unmounted (events : list (UseAuth.event Session))
      (h : UseAuth.Hook User Session) :
  UseAuth.mounted h = false ->
  UseAuth.authState (fold_left (UseAuth.step user_of) events h)
  = UseAuth.authState h
  /\ UseAuth.mounted (fold_left (UseAuth.step user_of) events h) = false.
Proof.
  revert h. induction events as [|e events IH]; intros h M; cbn [fold_left];
    [now split|].
  assert (E : UseAuth.authState (UseAuth.step user_of h e) = UseAuth.authState h
              /\ UseAuth.mounted (UseAuth.step user_of h e) = false).
  { destruct e as [s| |s|]; cbn [UseAuth.step]; rewrite ?M; now split. }
  destruct E as [E1 E2]. destruct (IH _ E2) as [F1 F2].
  split; [now rewrite F1 | exact F2].
Qed.

Lemma auth_fold_loaded (events : list (UseAuth.event Session))
      (h : UseAuth.Hook User Session) :
  UseAuth.loading (UseAuth.authState h) = false ->
  UseAuth.loading
    (UseAuth.authState (fold_left (UseAuth.step user_of) events h)) = false.
Proof.
  revert h. induction events as [|e events IH]; intros h L; cbn [fold_left];
    [exact L|].
  apply IH. destruct e as [s| |s|]; cbn [UseAuth.step];
    destruct (UseAuth.mounted h); try exact L; reflexivity.
Qed.

End AuthInvariant.

(** X19: whatever happens to [useAuth], in any order: the user of its state
    is the user of the session of its state, null when there is no
    session; once the state has stopped loading it never loads again; and
    after the unmounting no event changes the state any more. *)
Theorem useAuth_coherent (User Session : Type) (user_of : Session -> User)
        (events : list (UseAuth.event Session)) :
  let h := UseAuth.run_events user_of events in
  UseAuth.user (UseAuth.authState h)
  = option_map user_of (UseAuth.session (UseAuth.authState h))
  /\ (UseAuth.loading (UseAuth.authState h) = false ->
      forall more,
        UseAuth.loading
          (UseAuth.authState (fold_left (UseAuth.step user_of) more h))
        = false)
  /\ (forall more,
         UseAuth.authState
           (fold_left (UseAuth.step user_of) more
                      (UseAuth.step user_of h UseAuth.Unmount))
         = UseAuth.authState h).
Proof.
  intros h. split; [|split].
  - apply (auth_fold_user User Session user_of events UseAuth.initial).
    reflexivity.
  - intros L more. now apply auth_fold_loaded.
  - intros more.
    destruct (auth_fold_unmounted User Session user_of more
                (UseAuth.step user_of h UseAuth.Unmount) eq_refl) as [E _].
    exact E.
Qed.
